(** * Pruvious: the Nuxt module definition (defaults and [setup])

    A shallow embedding of the module definition of the Pruvious CMS
    (the [defineNuxtModule] call with its [defaults] object and its
    [setup] function) and of the option types of
    [src/runtime/module-types.ts], followed by models of the runtime
    components the specification describes (job dispatcher, clock,
    cache invalidator, token lifecycle manager) and the properties
    stated about them. *)

From stdpp Require Import gmap strings list fin_maps.
From Stdlib Require Import ZArith Ascii.

Local Open Scope string_scope.
Local Open Scope list_scope.
Local Open Scope Z_scope.

(** ** JavaScript values that occur in the options *)

(** The option objects hold strings, booleans, numbers, absent
    ([undefined]) entries and, for [dashboard.baseComponents.misc], a
    nested object of strings; [setup] branches on their truthiness. *)
Inductive value : Type :=
  | VUndefined
  | VBool (b : bool)
  | VNum (n : Z)
  | VStr (s : string)
  | VObj (fields : list (string * string)).

#[global] Instance value_eq_dec : EqDecision value.
Proof. solve_decision. Defined.

(** [if (v)] in JavaScript. *)
Definition truthy (v : value) : bool :=
  match v with
  | VUndefined => false
  | VBool b => b
  | VNum n => negb (n =? 0)
  | VStr s => negb (String.eqb s "")
  | VObj _ => true
  end.

(** [if (s)] for a string. *)
Definition nonEmpty (s : string) : bool := negb (String.eqb s "").

(** [obj[key]]: a missing key reads as [undefined]. *)
Definition prop (obj : gmap string value) (key : string) : value :=
  default VUndefined (obj !! key).

(** [obj[key]] for an object of boolean flags, as a condition. *)
Definition flag (obj : gmap string bool) (key : string) : bool :=
  default false (obj !! key).

(** ** Module options ([module-types.ts]) *)

Record ApiOptions : Type := {
  prefix : string;
  routes : gmap string value;
}.

Record DashboardOptions : Type := {
  baseComponents : gmap string value;
  enabled : bool;
  legalLinks : list (string * string);
  dashboard_prefix : string;
  removeSiteStyles : bool;
}.

(** [jobs: { searchInterval?: number } | false] *)
Inductive JobsOptions : Type :=
  | JobsOff
  | Jobs (searchInterval : Z).

Record JwtOptions : Type := {
  expiration : string;
  expirationLong : string;
  renewInterval : Z;
  secretKey : string;
  jwt_localStorageKey : string;
}.

Record LanguageOptions : Type := {
  supported : list (string * string);
  primary : string;
  prefixPrimary : option bool;
  language_localStorageKey : string;
}.

Record S3Options : Type := {
  s3_key : string;
  s3_secret : string;
  s3_bucket : string;
  s3_region : string;
  s3_endpoint : string;
  s3_baseUrl : string;
  s3_forcePathStyle : option bool;
}.

Inductive Drive : Type :=
  | DriveLocal (path : option string) (urlPrefix : option string)
  | DriveS3 (s3 : S3Options).

Record UploadsOptions : Type := {
  drive : option Drive;
  maxFileSize : value;
}.

(** [pageCache?: { type: 'local', path } | { type: 'redis' } | false] *)
Inductive PageCache : Type :=
  | PageCacheLocal (path : string)
  | PageCacheRedis
  | PageCacheOff.

Record StandardMiddleware : Type := {
  client_auth : bool;
  server : gmap string bool;
}.

Record ModuleOptions : Type := {
  api : ApiOptions;
  catchAllPages : bool;
  customCapabilities : list string;
  dashboard : DashboardOptions;
  database : string;
  jobs : JobsOptions;
  jwt : JwtOptions;
  language : LanguageOptions;
  migration : bool;
  redis : option string;
  singleCollectionsTable : string;
  standardCollections : gmap string bool;
  standardFields : gmap string bool;
  standardHooks : gmap string bool;
  standardJobs : gmap string bool;
  standardMiddleware : StandardMiddleware;
  standardTranslatableStrings : gmap string bool;
  uploads : UploadsOptions;
  pageCache : option PageCache;
}.

(** Functional updates of the fields the properties below vary. *)
Definition with_pageCache (pc : option PageCache) (o : ModuleOptions) : ModuleOptions :=
  {| api := api o; catchAllPages := catchAllPages o;
     customCapabilities := customCapabilities o; dashboard := dashboard o;
     database := database o; jobs := jobs o; jwt := jwt o;
     language := language o; migration := migration o; redis := redis o;
     singleCollectionsTable := singleCollectionsTable o;
     standardCollections := standardCollections o;
     standardFields := standardFields o; standardHooks := standardHooks o;
     standardJobs := standardJobs o;
     standardMiddleware := standardMiddleware o;
     standardTranslatableStrings := standardTranslatableStrings o;
     uploads := uploads o; pageCache := pc |}.

Definition with_server (srv : gmap string bool) (o : ModuleOptions) : ModuleOptions :=
  {| api := api o; catchAllPages := catchAllPages o;
     customCapabilities := customCapabilities o; dashboard := dashboard o;
     database := database o; jobs := jobs o; jwt := jwt o;
     language := language o; migration := migration o; redis := redis o;
     singleCollectionsTable := singleCollectionsTable o;
     standardCollections := standardCollections o;
     standardFields := standardFields o; standardHooks := standardHooks o;
     standardJobs := standardJobs o;
     standardMiddleware :=
       {| client_auth := client_auth (standardMiddleware o); server := srv |};
     standardTranslatableStrings := standardTranslatableStrings o;
     uploads := uploads o; pageCache := pageCache o |}.

Definition with_api (a : ApiOptions) (o : ModuleOptions) : ModuleOptions :=
  {| api := a; catchAllPages := catchAllPages o;
     customCapabilities := customCapabilities o; dashboard := dashboard o;
     database := database o; jobs := jobs o; jwt := jwt o;
     language := language o; migration := migration o; redis := redis o;
     singleCollectionsTable := singleCollectionsTable o;
     standardCollections := standardCollections o;
     standardFields := standardFields o; standardHooks := standardHooks o;
     standardJobs := standardJobs o;
     standardMiddleware := standardMiddleware o;
     standardTranslatableStrings := standardTranslatableStrings o;
     uploads := uploads o; pageCache := pageCache o |}.

(** ** The [defaults] object *)

Definition allTrue (keys : list string) : gmap string bool :=
  list_to_map ((λ k, (k, true)) <$> keys).

Definition default_routes : gmap string value :=
  list_to_map [
    ("clear-cache.post", VStr "clear-cache");
    ("collections", VStr "collections");
    ("dashboard.get", VStr "dashboard");
    ("install.post", VStr "install");
    ("installed.get", VStr "installed");
    ("login.post", VStr "login");
    ("logout.post", VStr "logout");
    ("logout-all.post", VStr "logout-all");
    ("logout-others.post", VStr "logout-others");
    ("pages.get", VStr "pages");
    ("previews.get", VStr "previews");
    ("process-job.post", VStr "process-job");
    ("profile.get", VStr "profile");
    ("profile.patch", VStr "profile");
    ("renew-token.post", VStr "renew-token");
    ("robots.txt.get", VStr "robots.txt");
    ("sitemap.xml.get", VStr "sitemap.xml");
    ("translatable-strings.get", VStr "translatable-strings");
    ("*", VBool true)
  ].

Definition default_baseComponents : gmap string value :=
  list_to_map ((λ k, (k, VUndefined)) <$>
    ["collections/overview"; "collections/record"; "head"; "header/logo";
     "install"; "login"; "login/logo"; "logout"; "media"]).

(** The only entry of [defaults] that is not a literal is
    [jwt.secretKey], the result of the call [nanoid(64)] made when the
    object is built; it is the argument [generatedKey] here. *)
Definition defaults (generatedKey : string) : ModuleOptions :=
  {| api := {| prefix := "api"; routes := default_routes |};
     catchAllPages := true;
     customCapabilities := [];
     dashboard :=
       {| baseComponents := default_baseComponents;
          enabled := true;
          legalLinks := [];
          dashboard_prefix := "dashboard";
          removeSiteStyles := true |};
     database := "sqlite:./pruvious.db";
     jobs := Jobs 60;
     jwt :=
       {| expiration := "4 hours";
          expirationLong := "7 days";
          renewInterval := 30;
          secretKey := generatedKey;
          jwt_localStorageKey := "token" |};
     language :=
       {| supported := [];
          primary := "en";
          prefixPrimary := None;
          language_localStorageKey := "language" |};
     migration := true;
     redis := None;
     singleCollectionsTable := "single_collections";
     standardCollections :=
       allTrue ["pages"; "presets"; "previews"; "redirects"; "roles"; "seo";
                "uploads"; "users"];
     standardFields :=
       allTrue ["block"; "button-group"; "checkbox"; "checkboxes"; "chips";
                "date"; "date-range"; "date-time"; "date-time-range";
                "editor"; "file"; "icon"; "image"; "link"; "number"; "range";
                "record"; "records"; "repeater"; "select"; "size"; "slider";
                "slider-range"; "switch"; "text"; "text-area"; "time";
                "time-range"];
     standardHooks := allTrue ["redirects"];
     standardJobs :=
       allTrue ["clean-expired-previews"; "clean-expired-tokens"; "publish-pages"];
     standardMiddleware :=
       {| client_auth := true;
          server := allTrue ["auth"; "config"; "language"; "uploads"] |};
     standardTranslatableStrings := allTrue ["dashboard"; "server"];
     uploads :=
       {| drive := Some (DriveLocal (Some "./.uploads") (Some "uploads"));
          maxFileSize := VStr "16 MB" |};
     pageCache := None |}.

(** ** Runtime configuration written by [setup] *)

Record PrivateConfig : Type := {
  rc_catchAllPages : bool;
  rc_customCapabilities : list string;
  rc_dashboard : DashboardOptions;
  rc_database : string;
  rc_jwt : JwtOptions;
  rc_jobs : JobsOptions;
  rc_migration : bool;
  rc_redis : option string;
  rc_singleCollectionsTable : string;
  rc_standardCollections : gmap string bool;
  rc_standardFields : gmap string bool;
  rc_standardHooks : gmap string bool;
  rc_standardJobs : gmap string bool;
  rc_standardMiddleware : StandardMiddleware;
  rc_standardTranslatableStrings : gmap string bool;
  rc_uploads : UploadsOptions;
  rc_uploadsDir : option string;
}.

Record PublicConfig : Type := {
  pc_api : ApiOptions;
  pc_dashboardPrefix : string;
  pc_dashboardRemoveSiteStyles : bool;
  pc_jwtRenewInterval : Z;
  pc_jwtLocalStorageKey : string;
  pc_language : LanguageOptions;
  pc_uploadLimit : value;
}.

Definition RuntimeConfig : Type := PrivateConfig * PublicConfig.

(** ** What [setup] registers with Nuxt *)

Record RouteMiddleware : Type := {
  mw_name : string;
  mw_path : string;
  mw_global : bool;
}.

Record ServerHandler : Type := {
  route : string;
  middleware : bool;
  handler : string;
}.

#[global] Instance ServerHandler_eq_dec : EqDecision ServerHandler.
Proof. solve_decision. Defined.

Record Page : Type := {
  page_name : string;
  page_path : string;
  page_file : string;
}.

Inductive FsOp : Type :=
  | EnsureDir (dir : string)
  | Remove (dir : string)
  | EnsureSymlink (src dst kind : string).

Record DatabaseInfo : Type := {
  dialect : string;
  storage : string;
}.

(** The part of the Nuxt instance that [setup] reads and writes.  The
    calls [addRouteMiddleware] (with its [override] option),
    [addServerHandler] and [nuxt.hook] are recorded in call order. *)
Record Nuxt : Type := {
  nuxt_version : string;
  rootDir : string;
  dir_public : string;
  runtimeConfig_pruvious : option PrivateConfig;
  runtimeConfig_public_pruvious : option PublicConfig;
  routeMiddleware : list (RouteMiddleware * bool);
  serverHandlers : list ServerHandler;
  pages : list Page;
  hooks : list string;
  alias : gmap string string;
  ignore : option (list string);
  pagesEnabled : bool;
  warnings : list string;
  fsOps : list FsOp;
}.

Inductive Outcome : Type :=
  | Started (nuxt : Nuxt)
  | Refused (error : string).

Definition started (o : Outcome) : bool :=
  match o with Started _ => true | Refused _ => false end.

(** ** Imported functions

    [setup] calls functions of the Nuxt kit, of Node and of other
    modules of the package whose bodies are not part of the two source
    files; they are the operations of this interface.
    [getModuleOptions] stands for the three calls [patchModuleOptions],
    [cacheModuleOptions] and [getModuleOptions] on the runtime
    configuration; [validateLanguageOptions] returns the message of the
    error it throws, if it throws.  [patchModuleOptions] is what the
    patch leaves in [nuxt.options.runtimeConfig], which it rewrites in
    place, and [createComponentDirectories] the file-system operations
    of that call.  The other calls are taken to return. *)
Class Runtime : Type := {
  semverSatisfies : string → string → bool;
  resolveModulePath : string → string;
  resolveAppPath : string → string;
  resolveRelativeAppPath : value → string;
  resolveRelativeModulePath : list string → string;
  pascalCase : string → string;
  joinRouteParts : list value → string;
  parseBytes : string → value;
  mergeDefaults : ∀ A : Type, option A → A → A;
  patchModuleOptions : RuntimeConfig → RuntimeConfig;
  getModuleOptions : RuntimeConfig → ModuleOptions;
  getUploadsDir : RuntimeConfig → string;
  getDatabaseInfo : RuntimeConfig → DatabaseInfo;
  basename : string → string;
  pathJoin : list string → string;
  isDevelopment : bool;
  isTest : bool;
  validateLanguageOptions : ModuleOptions → option string;
  createComponentDirectories : RuntimeConfig → list FsOp;
}.

(** Setters for the recorded effects. *)
Definition warn (msg : string) (n : Nuxt) : Nuxt :=
  {| nuxt_version := nuxt_version n; rootDir := rootDir n;
     dir_public := dir_public n;
     runtimeConfig_pruvious := runtimeConfig_pruvious n;
     runtimeConfig_public_pruvious := runtimeConfig_public_pruvious n;
     routeMiddleware := routeMiddleware n; serverHandlers := serverHandlers n;
     pages := pages n; hooks := hooks n; alias := alias n; ignore := ignore n;
     pagesEnabled := pagesEnabled n; warnings := warnings n ++ [msg];
     fsOps := fsOps n |}.

Definition setRuntimeConfig (rc : RuntimeConfig) (n : Nuxt) : Nuxt :=
  {| nuxt_version := nuxt_version n; rootDir := rootDir n;
     dir_public := dir_public n;
     runtimeConfig_pruvious := Some (fst rc);
     runtimeConfig_public_pruvious := Some (snd rc);
     routeMiddleware := routeMiddleware n; serverHandlers := serverHandlers n;
     pages := pages n; hooks := hooks n; alias := alias n; ignore := ignore n;
     pagesEnabled := pagesEnabled n; warnings := warnings n;
     fsOps := fsOps n |}.

Definition addRouteMiddlewares (ms : list (RouteMiddleware * bool)) (n : Nuxt) : Nuxt :=
  {| nuxt_version := nuxt_version n; rootDir := rootDir n;
     dir_public := dir_public n;
     runtimeConfig_pruvious := runtimeConfig_pruvious n;
     runtimeConfig_public_pruvious := runtimeConfig_public_pruvious n;
     routeMiddleware := routeMiddleware n ++ ms;
     serverHandlers := serverHandlers n;
     pages := pages n; hooks := hooks n; alias := alias n; ignore := ignore n;
     pagesEnabled := pagesEnabled n; warnings := warnings n;
     fsOps := fsOps n |}.

Definition addServerHandlers (hs : list ServerHandler) (n : Nuxt) : Nuxt :=
  {| nuxt_version := nuxt_version n; rootDir := rootDir n;
     dir_public := dir_public n;
     runtimeConfig_pruvious := runtimeConfig_pruvious n;
     runtimeConfig_public_pruvious := runtimeConfig_public_pruvious n;
     routeMiddleware := routeMiddleware n;
     serverHandlers := serverHandlers n ++ hs;
     pages := pages n; hooks := hooks n; alias := alias n; ignore := ignore n;
     pagesEnabled := pagesEnabled n; warnings := warnings n;
     fsOps := fsOps n |}.

Definition setPages (ps : list Page) (n : Nuxt) : Nuxt :=
  {| nuxt_version := nuxt_version n; rootDir := rootDir n;
     dir_public := dir_public n;
     runtimeConfig_pruvious := runtimeConfig_pruvious n;
     runtimeConfig_public_pruvious := runtimeConfig_public_pruvious n;
     routeMiddleware := routeMiddleware n; serverHandlers := serverHandlers n;
     pages := ps; hooks := hooks n; alias := alias n; ignore := ignore n;
     pagesEnabled := pagesEnabled n; warnings := warnings n;
     fsOps := fsOps n |}.

Definition addHooks (hs : list string) (n : Nuxt) : Nuxt :=
  {| nuxt_version := nuxt_version n; rootDir := rootDir n;
     dir_public := dir_public n;
     runtimeConfig_pruvious := runtimeConfig_pruvious n;
     runtimeConfig_public_pruvious := runtimeConfig_public_pruvious n;
     routeMiddleware := routeMiddleware n; serverHandlers := serverHandlers n;
     pages := pages n; hooks := hooks n ++ hs; alias := alias n;
     ignore := ignore n;
     pagesEnabled := pagesEnabled n; warnings := warnings n;
     fsOps := fsOps n |}.

Definition setOther (al : gmap string string) (ig : list string) (n : Nuxt) : Nuxt :=
  {| nuxt_version := nuxt_version n; rootDir := rootDir n;
     dir_public := dir_public n;
     runtimeConfig_pruvious := runtimeConfig_pruvious n;
     runtimeConfig_public_pruvious := runtimeConfig_public_pruvious n;
     routeMiddleware := routeMiddleware n; serverHandlers := serverHandlers n;
     pages := pages n; hooks := hooks n; alias := al; ignore := Some ig;
     pagesEnabled := true; warnings := warnings n;
     fsOps := fsOps n |}.

Definition ignorePush (patterns : list string) (n : Nuxt) : Nuxt :=
  {| nuxt_version := nuxt_version n; rootDir := rootDir n;
     dir_public := dir_public n;
     runtimeConfig_pruvious := runtimeConfig_pruvious n;
     runtimeConfig_public_pruvious := runtimeConfig_public_pruvious n;
     routeMiddleware := routeMiddleware n; serverHandlers := serverHandlers n;
     pages := pages n; hooks := hooks n; alias := alias n;
     ignore := Some (default [] (ignore n) ++ patterns);
     pagesEnabled := pagesEnabled n; warnings := warnings n;
     fsOps := fsOps n |}.

Definition fsDo (ops : list FsOp) (n : Nuxt) : Nuxt :=
  {| nuxt_version := nuxt_version n; rootDir := rootDir n;
     dir_public := dir_public n;
     runtimeConfig_pruvious := runtimeConfig_pruvious n;
     runtimeConfig_public_pruvious := runtimeConfig_public_pruvious n;
     routeMiddleware := routeMiddleware n; serverHandlers := serverHandlers n;
     pages := pages n; hooks := hooks n; alias := alias n; ignore := ignore n;
     pagesEnabled := pagesEnabled n; warnings := warnings n;
     fsOps := fsOps n ++ ops |}.

(** ** [setup] *)

Section Setup.
Context `{rt : Runtime}.

(** The loop over [Object.entries(options.dashboard.baseComponents)]:
    every entry is replaced by a resolved path, that of the entry
    itself if it is truthy (the nested [misc] object is). *)
Definition resolveBaseComponents (d : DashboardOptions) : DashboardOptions :=
  {| baseComponents :=
       map_imap (λ name componentPath,
         Some (VStr
           (if truthy componentPath then resolveRelativeAppPath componentPath
            else resolveRelativeModulePath
                   ["./runtime/components/dashboard"; pascalCase name +:+ ".vue"])))
         (baseComponents d);
     enabled := enabled d;
     legalLinks := legalLinks d;
     dashboard_prefix := dashboard_prefix d;
     removeSiteStyles := removeSiteStyles d |}.

(** The object merged into [nuxt.options.runtimeConfig.pruvious]. *)
Definition privateConfig (options : ModuleOptions) : PrivateConfig :=
  {| rc_catchAllPages := catchAllPages options;
     rc_customCapabilities := customCapabilities options;
     rc_dashboard := resolveBaseComponents (dashboard options);
     rc_database := database options;
     rc_jwt := jwt options;
     rc_jobs := jobs options;
     rc_migration := migration options;
     rc_redis := redis options;
     rc_singleCollectionsTable := singleCollectionsTable options;
     rc_standardCollections := standardCollections options;
     rc_standardFields := standardFields options;
     rc_standardHooks := standardHooks options;
     rc_standardJobs := standardJobs options;
     rc_standardMiddleware := standardMiddleware options;
     rc_standardTranslatableStrings := standardTranslatableStrings options;
     rc_uploads := uploads options;
     rc_uploadsDir :=
       match drive (uploads options) with
       | Some (DriveLocal path _) =>
           Some (resolveRelativeAppPath (VStr (default "./.uploads" path)))
       | _ => None
       end |}.

(** The object merged into [nuxt.options.runtimeConfig.public.pruvious]. *)
Definition publicConfig (options : ModuleOptions) : PublicConfig :=
  {| pc_api := api options;
     pc_dashboardPrefix := dashboard_prefix (dashboard options);
     pc_dashboardRemoveSiteStyles := removeSiteStyles (dashboard options);
     pc_jwtRenewInterval := renewInterval (jwt options);
     pc_jwtLocalStorageKey := jwt_localStorageKey (jwt options);
     pc_language := language options;
     pc_uploadLimit :=
       match maxFileSize (uploads options) with
       | VStr s => parseBytes s
       | VUndefined => parseBytes "16 MB"
       | v => v
       end |}.

Definition runtimeConfigOf (options : ModuleOptions) (nuxt : Nuxt) : RuntimeConfig :=
  (mergeDefaults _ (runtimeConfig_pruvious nuxt) (privateConfig options),
   mergeDefaults _ (runtimeConfig_public_pruvious nuxt) (publicConfig options)).

(** *** Client middleware *)
Definition clientMiddleware (moduleOptions : ModuleOptions) : list (RouteMiddleware * bool) :=
  if client_auth (standardMiddleware moduleOptions) then
    [({| mw_name := "pruvious-auth";
         mw_path := resolveModulePath "./runtime/middleware/client/auth";
         mw_global := client_auth (standardMiddleware moduleOptions) |}, true)]
  else [].

(** *** Server middleware *)
Definition serverMiddlewareNames : list string := ["config"; "language"; "auth"].

Definition serverMiddlewareHandler (name : string) : ServerHandler :=
  {| route := "";
     middleware := true;
     handler := resolveModulePath ("./runtime/middleware/server/" +:+ name) |}.

Definition serverMiddleware (moduleOptions : ModuleOptions) : list ServerHandler :=
  concat ((λ name,
    if flag (server (standardMiddleware moduleOptions)) name
    then [serverMiddlewareHandler name] else []) <$> serverMiddlewareNames).

(** *** API routes *)
Definition apiRoute (moduleOptions : ModuleOptions) (key : string) : value :=
  prop (routes (api moduleOptions)) key.

Definition apiHandler (parts : list value) (module : string) : ServerHandler :=
  {| route := joinRouteParts parts;
     middleware := false;
     handler := resolveModulePath module |}.

Definition collectionsRoute (moduleOptions : ModuleOptions) : list ServerHandler :=
  if truthy (apiRoute moduleOptions "collections") then
    [apiHandler [VStr (prefix (api moduleOptions));
                 apiRoute moduleOptions "collections"; VStr "**"]
                "./runtime/api/collections"]
  else [].

Definition plainRouteNames : list string :=
  ["clear-cache.post"; "dashboard.get"; "install.post"; "installed.get";
   "login.post"; "logout.post"; "logout-all.post"; "logout-others.post";
   "process-job.post"; "profile.get"; "profile.patch"; "renew-token.post"].

Definition plainRoute (moduleOptions : ModuleOptions) (name : string) : list ServerHandler :=
  if truthy (apiRoute moduleOptions name) then
    [apiHandler [VStr (prefix (api moduleOptions)); apiRoute moduleOptions name]
                ("./runtime/api/" +:+ name)]
  else [].

Definition plainRoutes (moduleOptions : ModuleOptions) : list ServerHandler :=
  concat (plainRoute moduleOptions <$> plainRouteNames).

Definition pagesRoutes (moduleOptions : ModuleOptions) : list ServerHandler :=
  if truthy (apiRoute moduleOptions "pages.get") then
    if nonEmpty (prefix (api moduleOptions)) then
      [apiHandler [VStr (prefix (api moduleOptions)); apiRoute moduleOptions "pages.get"]
                  "./runtime/api/pages.get";
       apiHandler [VStr (prefix (api moduleOptions)); apiRoute moduleOptions "pages.get";
                   VStr "**"]
                  "./runtime/api/pages.get"]
    else []
  else [].

Definition previewsRoutes (moduleOptions : ModuleOptions) : list ServerHandler :=
  if truthy (apiRoute moduleOptions "previews.get") then
    if nonEmpty (prefix (api moduleOptions)) then
      [apiHandler [VStr (prefix (api moduleOptions)); apiRoute moduleOptions "previews.get"]
                  "./runtime/api/previews.get";
       apiHandler [VStr (prefix (api moduleOptions)); apiRoute moduleOptions "previews.get";
                   VStr "**"]
                  "./runtime/api/previews.get"]
    else []
  else [].

Definition translatableStringsRoutes (moduleOptions : ModuleOptions) : list ServerHandler :=
  if truthy (apiRoute moduleOptions "translatable-strings.get") then
    if nonEmpty (prefix (api moduleOptions)) then
      [apiHandler [VStr (prefix (api moduleOptions));
                   apiRoute moduleOptions "translatable-strings.get"]
                  "./runtime/api/translatable-strings.get";
       apiHandler [VStr (prefix (api moduleOptions));
                   apiRoute moduleOptions "translatable-strings.get"; VStr ":domain"]
                  "./runtime/api/translatable-strings.get"]
    else []
  else [].

Definition catchAllRoutes (moduleOptions : ModuleOptions) : list ServerHandler :=
  if truthy (apiRoute moduleOptions "*") then
    (if nonEmpty (prefix (api moduleOptions)) then
       [apiHandler [VStr (prefix (api moduleOptions))] "./runtime/api/catch-all"]
     else [])
    ++ [apiHandler [VStr (prefix (api moduleOptions)); VStr "**"]
                   "./runtime/api/catch-all"]
  else [].

Definition apiRoutes (moduleOptions : ModuleOptions) : list ServerHandler :=
  collectionsRoute moduleOptions ++ plainRoutes moduleOptions
  ++ pagesRoutes moduleOptions ++ previewsRoutes moduleOptions
  ++ translatableStringsRoutes moduleOptions ++ catchAllRoutes moduleOptions.

(** *** Pages: the callback given to [extendPages] *)
Definition extendPagesCallback (moduleOptions : ModuleOptions) (pages : list Page) : list Page :=
  let pages :=
    if enabled (dashboard moduleOptions) then
      pages ++ [{| page_name := "pruvious-dashboard";
                   page_path :=
                     joinRouteParts [VStr (dashboard_prefix (dashboard moduleOptions));
                                     VStr ":catchAll(.*)?"];
                   page_file := resolveModulePath "./runtime/pages/dashboard/index" |}]
    else pages in
  if truthy (apiRoute moduleOptions "pages.get") && catchAllPages moduleOptions then
    pages ++ [{| page_name := "pruvious-page";
                 page_path := "/:catchAll(.*)";
                 page_file := resolveModulePath "./runtime/pages/[...slug]" |}]
  else pages.

(** *** SEO *)
Definition seoRoutes (moduleOptions : ModuleOptions) : list ServerHandler :=
  (if truthy (apiRoute moduleOptions "robots.txt.get") then
     [apiHandler [apiRoute moduleOptions "robots.txt.get"] "./runtime/api/robots.get"]
   else [])
  ++
  (if truthy (apiRoute moduleOptions "sitemap.xml.get") then
     [apiHandler [apiRoute moduleOptions "sitemap.xml.get"] "./runtime/api/sitemap.get";
      apiHandler [apiRoute moduleOptions "sitemap.xml.get"; VStr ":index"]
                 "./runtime/api/sitemap.get"]
   else []).

(** *** Hooks

    [moduleOptions.uploads] is an object, so the ['nitro:init'] hook is
    always added. *)
Definition hookNames : list string :=
  ["build:manifest"; "builder:watch"; "components:dirs"; "nitro:config"; "ready";
   "nitro:init"].

(** The ['components:dirs'] callback: [unshift] puts the new
    directories in front. *)
Definition componentsDirsHook (options : ModuleOptions)
    (dirs : list (string * option string)) : list (string * option string) :=
  let dirs :=
    if flag (standardFields options) "icon"
    then (resolveAppPath "./icons", Some "Icon") :: dirs else dirs in
  [(resolveModulePath "./runtime/components/icons", Some "PruviousIcon");
   (resolveModulePath "./runtime/components/misc", Some "Pruvious");
   (resolveAppPath "./blocks", None)] ++ dirs.

(** The ['nitro:config'] callback on [config.routeRules]: the rule
    [{ ssr: false }] is stored as [false]. *)
Definition nitroConfigHook (moduleOptions : ModuleOptions)
    (routeRules : option (gmap string bool)) : option (gmap string bool) :=
  if enabled (dashboard moduleOptions) then
    Some (<["/" +:+ dashboard_prefix (dashboard moduleOptions) +:+ "/**" := false]>
            (default ∅ routeRules))
  else routeRules.

(** *** Other *)
Definition sqliteIgnore (dbInfo : DatabaseInfo) : list string :=
  if String.eqb (dialect dbInfo) "sqlite" then
    ["**/" +:+ basename (storage dbInfo);
     "**/" +:+ (basename (storage dbInfo) +:+ "-journal")]
  else [].

(** All the server handlers [setup] adds, in call order. *)
Definition registered (moduleOptions : ModuleOptions) : list ServerHandler :=
  serverMiddleware moduleOptions ++ apiRoutes moduleOptions ++ seoRoutes moduleOptions.

(** Everything after [const moduleOptions = getModuleOptions()], up
    to the two final calls.  Reading [moduleOptions.uploads.drive.type]
    when [drive] is absent throws. *)
Definition install (moduleOptions : ModuleOptions) (uploadsDir : string)
    (dbInfo : DatabaseInfo) (nuxt : Nuxt) : Outcome :=
  let nuxt := addRouteMiddlewares (clientMiddleware moduleOptions) nuxt in
  let nuxt := addServerHandlers (serverMiddleware moduleOptions) nuxt in
  let nuxt := addServerHandlers (apiRoutes moduleOptions) nuxt in
  let nuxt := setPages (extendPagesCallback moduleOptions (pages nuxt)) nuxt in
  let nuxt := addServerHandlers (seoRoutes moduleOptions) nuxt in
  let nuxt := addHooks hookNames nuxt in
  let nuxt :=
    setOther (<["#pruvious" := resolveAppPath "./.pruvious"]> (alias nuxt))
             (default [] (ignore nuxt)) nuxt in
  let nuxt := ignorePush (sqliteIgnore dbInfo) nuxt in
  match drive (uploads moduleOptions) with
  | None => Refused "TypeError: Cannot read properties of undefined (reading 'type')"
  | Some (DriveLocal path urlPrefix) =>
      let symDir := pathJoin [rootDir nuxt; dir_public nuxt; default "uploads" urlPrefix] in
      let nuxt := fsDo [EnsureDir uploadsDir; Remove symDir] nuxt in
      let nuxt :=
        if isDevelopment || isTest
        then fsDo [EnsureSymlink uploadsDir symDir "junction"] nuxt else nuxt in
      Started (ignorePush ["**/" +:+ basename (default "./uploads" path) +:+ "/**/*"] nuxt)
  | Some (DriveS3 _) => Started nuxt
  end.

Definition versionWarning (version : string) : string :=
  "This version of Pruvious is compatible with Nuxt $c{{ 3.10.x }}. You are currently using Nuxt $y{{ "
  +:+ version +:+ " }}.".

(** The module options [setup] works with: the cached runtime
    configuration, read back. *)
Definition resolvedOptions (options : ModuleOptions) (nuxt : Nuxt) : ModuleOptions :=
  getModuleOptions (runtimeConfigOf options nuxt).

(** [initModulePathResolver] and [initRootDir] prepare the path
    functions of the runtime and leave the Nuxt instance as it is.
    [patchModuleOptions] rewrites the runtime configuration in place,
    so the patched one is what the Nuxt instance keeps; the module
    options, the uploads directory and the database information are
    read from the options cached after the patch. *)
Definition setup (options : ModuleOptions) (nuxt : Nuxt) : Outcome :=
  let nuxt :=
    if semverSatisfies (nuxt_version nuxt) "3.10" then nuxt
    else warn (versionWarning (nuxt_version nuxt)) nuxt in
  let runtimeConfig := runtimeConfigOf options nuxt in
  let nuxt := setRuntimeConfig (patchModuleOptions runtimeConfig) nuxt in
  let moduleOptions := getModuleOptions runtimeConfig in
  match install moduleOptions (getUploadsDir runtimeConfig)
                (getDatabaseInfo runtimeConfig) nuxt with
  | Refused e => Refused e
  | Started nuxt =>
      match validateLanguageOptions moduleOptions with
      | Some e => Refused e
      | None => Started (fsDo (createComponentDirectories runtimeConfig) nuxt)
      end
  end.

End Setup.

(** ** A sample runtime

    One concrete choice of the imported functions, used to run [setup]
    on concrete options: paths are resolved by prefixing a directory,
    route parts are joined with slashes, nothing is configured beside
    the module options, the patch changes nothing, the language options
    are accepted and one component directory is created. *)

Definition valueText (v : value) : string :=
  match v with
  | VStr s => s
  | VBool true => "true"
  | VBool false => "false"
  | VNum _ => "0"
  | VUndefined => "undefined"
  | VObj _ => "[object Object]"
  end.

Fixpoint joinWith (sep : string) (parts : list string) : string :=
  match parts with
  | [] => ""
  | [p] => p
  | p :: rest => p +:+ sep +:+ joinWith sep rest
  end.

Definition sampleJoinRouteParts (parts : list value) : string :=
  "/" +:+ joinWith "/" (filter (λ p, p ≠ "") (valueText <$> parts)).

Definition sampleModuleOptions (rc : RuntimeConfig) : ModuleOptions :=
  let priv := fst rc in
  let pub := snd rc in
  {| api := pc_api pub;
     catchAllPages := rc_catchAllPages priv;
     customCapabilities := rc_customCapabilities priv;
     dashboard := rc_dashboard priv;
     database := rc_database priv;
     jobs := rc_jobs priv;
     jwt := rc_jwt priv;
     language := pc_language pub;
     migration := rc_migration priv;
     redis := rc_redis priv;
     singleCollectionsTable := rc_singleCollectionsTable priv;
     standardCollections := rc_standardCollections priv;
     standardFields := rc_standardFields priv;
     standardHooks := rc_standardHooks priv;
     standardJobs := rc_standardJobs priv;
     standardMiddleware := rc_standardMiddleware priv;
     standardTranslatableStrings := rc_standardTranslatableStrings priv;
     uploads := rc_uploads priv;
     pageCache := None |}.

Definition sampleRuntime : Runtime :=
  {| semverSatisfies := λ version range, String.prefix range version;
     resolveModulePath := λ p, "/module/" +:+ p;
     resolveAppPath := λ p, "/app/" +:+ p;
     resolveRelativeAppPath := λ p, "app/" +:+ valueText p;
     resolveRelativeModulePath := λ ps, "module/" +:+ joinWith "/" ps;
     pascalCase := λ s, s;
     joinRouteParts := sampleJoinRouteParts;
     parseBytes := λ _, VNum 16777216;
     mergeDefaults := λ A target defaults, default defaults target;
     patchModuleOptions := λ rc, rc;
     getModuleOptions := sampleModuleOptions;
     getUploadsDir := λ rc, default "" (rc_uploadsDir (fst rc));
     getDatabaseInfo := λ rc, {| dialect := "sqlite"; storage := "./pruvious.db" |};
     basename := λ p, p;
     pathJoin := joinWith "/";
     isDevelopment := false;
     isTest := false;
     validateLanguageOptions := λ _, None;
     createComponentDirectories := λ _, [EnsureDir "/app/./blocks"] |}.

Definition freshNuxt : Nuxt :=
  {| nuxt_version := "3.10.3"; rootDir := "/app"; dir_public := "public";
     runtimeConfig_pruvious := None; runtimeConfig_public_pruvious := None;
     routeMiddleware := []; serverHandlers := []; pages := []; hooks := [];
     alias := ∅; ignore := None; pagesEnabled := false; warnings := [];
     fsOps := [] |}.

(** The default options with one API route option replaced. *)
Definition withRoute (key : string) (v : value) (o : ModuleOptions) : ModuleOptions :=
  with_api {| prefix := prefix (api o); routes := <[key := v]> (routes (api o)) |} o.

Definition withPrefix (p : string) (o : ModuleOptions) : ModuleOptions :=
  with_api {| prefix := p; routes := routes (api o) |} o.

(** ** Cache layer and cache invalidator *)

Module Cache.

(** Modelled from the spec: the cache layer and the cache invalidator
    are not part of the sources.  A cache entry has a payload, a
    version tag and an optional expiry; its key is the composite of
    scope and identifier, written as one path such as
    [page/en/home]. *)
Record Entry : Type := {
  payload : string;
  version : nat;
  expires_at : option Z;
}.

(** Modelled from the spec: [get(key) -> value or miss], with the TTL
    checked at read time. *)
Definition get (now : Z) (key : string) (cache : gmap string Entry) : option string :=
  match cache !! key with
  | Some e =>
      match expires_at e with
      | Some t => if t <=? now then None else Some (payload e)
      | None => Some (payload e)
      end
  | None => None
  end.

(** Modelled from the spec: [set(key, value, ttl?)]; the version tag
    is monotonic. *)
Definition set (now : Z) (key value : string) (ttl : option Z)
    (cache : gmap string Entry) : gmap string Entry :=
  <[key := {| payload := value;
              version := S (default 0%nat (version <$> cache !! key));
              expires_at := (λ d, now + d) <$> ttl |}]> cache.

(** Modelled from the spec: [deleteByPrefix(scope)] removes all keys
    sharing the scope and leaves the keys outside it. *)
Definition deleteByPrefix (scope : string) (cache : gmap string Entry) : gmap string Entry :=
  filter (λ kv, String.prefix scope (fst kv) = false) cache.

(** Modelled from the spec: [invalidate(scope, identifier)], which
    completes before it returns; the scope ["all"] covers every key. *)
Definition invalidate (scope : string) (identifier : option string)
    (cache : gmap string Entry) : gmap string Entry :=
  if String.eqb scope "all" then deleteByPrefix "" cache
  else
    match identifier with
    | Some i => deleteByPrefix (scope +:+ "/" +:+ i) cache
    | None => deleteByPrefix scope cache
    end.

Inductive Response : Type :=
  | Done
  | Unauthorized
  | Inaccessible.

(** Modelled from the spec: the handler of the [clear-cache]
    endpoint ([./runtime/api/clear-cache.post], not part of the
    sources).  The documentation of the route option in
    [module-types.ts] makes the route inaccessible when Redis is
    deactivated; otherwise an administrative request invokes the
    invalidator with scope ["all"] and is answered once the
    invalidation is done, and any other request is turned away. *)
Definition clearCachePost (moduleOptions : ModuleOptions) (administrative : bool)
    (cache : gmap string Entry) : gmap string Entry * Response :=
  match redis moduleOptions with
  | None => (cache, Inaccessible)
  | Some _ =>
      if administrative then
        let cache := invalidate "all" None cache in
        (cache, Done)
      else (cache, Unauthorized)
  end.

(** Modelled from the spec: a request answered by the registered
    handler [h].  Only the module of the clear-cache endpoint is
    modelled; the other modules give no answer here. *)
Definition answer `{rt : Runtime} (moduleOptions : ModuleOptions) (h : ServerHandler)
    (administrative : bool) (cache : gmap string Entry)
    : option (gmap string Entry * Response) :=
  if decide (handler h = resolveModulePath "./runtime/api/clear-cache.post")
  then Some (clearCachePost moduleOptions administrative cache)
  else None.

(** A cache with one page. *)
Definition onePage : gmap string Entry :=
  {["page/en/home" := {| payload := "<html>"; version := 1; expires_at := None |}]}.

End Cache.

(** ** Job store, claim and dispatcher *)

Module Dispatcher.

(** Modelled from the spec: the job store, the claim operation and
    the dispatcher are not part of the sources.  The definitions
    follow sections 3, 4.2 and 5 of the specification. *)
Inductive Status : Type := Pending | Claimed | Running | Succeeded | Failed.

#[global] Instance Status_eq_dec : EqDecision Status.
Proof. solve_decision. Defined.

(** Modelled from the spec: the Job Run Record. *)
Record JobRunRecord : Type := {
  job_name : string;
  status : Status;
  claimed_by : option string;
  claimed_at : option Z;
  next_due_at : Z;
  last_error : option string;
}.

#[global] Instance JobRunRecord_eq_dec : EqDecision JobRunRecord.
Proof. solve_decision. Defined.

(** Modelled from the spec: a schedule is a fixed interval or a
    cron-like rule, given by the due time that follows a time. *)
Inductive Schedule : Type :=
  | FixedInterval (seconds : Z)
  | CronLike (next : Z → Z).

Definition nextDue (s : Schedule) (now : Z) : Z :=
  match s with
  | FixedInterval seconds => now + seconds
  | CronLike next => next now
  end.

(** Modelled from the spec: the Job Descriptor; the handler takes no
    input and returns a failure message or nothing. *)
Record JobDescriptor : Type := {
  name : string;
  schedule : Schedule;
  handler : unit → option string;
  idempotent : bool;
}.

(** Modelled from the spec: the job store holds one record per job
    name. *)
Abbreviation Store := (gmap string JobRunRecord).

Inductive ClaimResult : Type := ClaimOk | ClaimConflict.

(** Modelled from the spec: the atomic claim, one conditional write
    keyed on the job name.  It takes the record the instance observed
    when it listed the due jobs ([expected], pending or absent) and
    succeeds only if the store still holds that state; it then writes
    [claimed], [claimed_by] and [claimed_at]. *)
Definition claim (instance : string) (now : Z) (job : string)
    (expected : option JobRunRecord) (store : Store) : ClaimResult * Store :=
  if decide (store !! job = expected) then
    match expected with
    | None =>
        (ClaimOk,
         <[job := {| job_name := job; status := Claimed;
                     claimed_by := Some instance; claimed_at := Some now;
                     next_due_at := now; last_error := None |}]> store)
    | Some r =>
        match status r with
        | Pending =>
            (ClaimOk,
             <[job := {| job_name := job_name r; status := Claimed;
                         claimed_by := Some instance; claimed_at := Some now;
                         next_due_at := next_due_at r;
                         last_error := last_error r |}]> store)
        | _ => (ClaimConflict, store)
        end
    end
  else (ClaimConflict, store).

Definition setStatus (st : Status) (r : JobRunRecord) : JobRunRecord :=
  {| job_name := job_name r; status := st; claimed_by := claimed_by r;
     claimed_at := claimed_at r; next_due_at := next_due_at r;
     last_error := last_error r |}.

(** Modelled from the spec: the end of a run.  The record becomes
    [succeeded], or [failed] with the error, and [next_due_at] is
    recomputed from the schedule. *)
Definition complete (s : Schedule) (now : Z) (outcome : option string)
    (r : JobRunRecord) : JobRunRecord :=
  {| job_name := job_name r;
     status := match outcome with None => Succeeded | Some _ => Failed end;
     claimed_by := claimed_by r; claimed_at := claimed_at r;
     next_due_at := nextDue s now;
     last_error := match outcome with None => last_error r | Some e => Some e end |}.

(** Modelled from the spec: a completed record becomes [pending]
    again, with the claim released. *)
Definition rearm (r : JobRunRecord) : JobRunRecord :=
  {| job_name := job_name r; status := Pending; claimed_by := None;
     claimed_at := None; next_due_at := next_due_at r;
     last_error := last_error r |}.

(** Modelled from the spec: where an instance is in its handling of one
    due job (claim, [running], handler, completion, [pending] again). *)
Inductive Phase : Type :=
  | Ready
  | Holding
  | Executing
  | Ran (outcome : option string)
  | Completed
  | Finished
  | Skipped.

Inductive Who : Type := First | Second.

(** Two dispatcher instances that both listed the same due job, the
    store they share, and the handler executions so far. *)
Record System : Type := {
  store : Store;
  executions : list string;
  phase1 : Phase;
  phase2 : Phase;
}.

Section Race.
Variable job : JobDescriptor.
Variable instance1 instance2 : string.
Variable now1 now2 : Z.
(** The state of the record both instances observed. *)
Variable expected : option JobRunRecord.

Definition instanceOf (w : Who) : string :=
  match w with First => instance1 | Second => instance2 end.

Definition nowOf (w : Who) : Z :=
  match w with First => now1 | Second => now2 end.

Definition phaseOf (w : Who) (s : System) : Phase :=
  match w with First => phase1 s | Second => phase2 s end.

Definition other (w : Who) : Who :=
  match w with First => Second | Second => First end.

Definition update (w : Who) (st : Store) (ex : list string) (p : Phase)
    (s : System) : System :=
  match w with
  | First => {| store := st; executions := ex; phase1 := p; phase2 := phase2 s |}
  | Second => {| store := st; executions := ex; phase1 := phase1 s; phase2 := p |}
  end.

(** Modelled from the spec: one atomic step of instance [w], which is
    the claim, the transition to [running], the execution of the
    handler, the completion, or the return to [pending].  A finished or
    skipped instance does nothing more. *)
Definition step (w : Who) (s : System) : System :=
  match phaseOf w s with
  | Ready =>
      match claim (instanceOf w) (nowOf w) (name job) expected (store s) with
      | (ClaimOk, st) => update w st (executions s) Holding s
      | (ClaimConflict, st) => update w st (executions s) Skipped s
      end
  | Holding =>
      update w (alter (setStatus Running) (name job) (store s)) (executions s)
             Executing s
  | Executing =>
      update w (store s) (executions s ++ [instanceOf w]) (Ran (handler job ())) s
  | Ran outcome =>
      update w (alter (complete (schedule job) (nowOf w) outcome) (name job) (store s))
             (executions s) Completed s
  | Completed =>
      update w (alter rearm (name job) (store s)) (executions s) Finished s
  | Finished | Skipped => s
  end.

(** An interleaving of the two instances. *)
Definition run (interleaving : list Who) (s : System) : System :=
  foldl (λ s w, step w s) s interleaving.

Definition initial (st : Store) : System :=
  {| store := st; executions := []; phase1 := Ready; phase2 := Ready |}.

Definition terminated (p : Phase) : bool :=
  match p with Finished | Skipped => true | _ => false end.

Definition terminal (s : System) : bool :=
  terminated (phase1 s) && terminated (phase2 s).

(** The record is due and unclaimed for an instance whose clock
    shows [now]. *)
Definition due (now : Z) : Prop :=
  match expected with
  | Some r => status r = Pending ∧ next_due_at r ≤ now
  | None => True
  end.

(** What the handler executions must be, given how far the winner
    got. *)
Definition executed (w : Who) (p : Phase) : list string :=
  match p with
  | Ready | Holding | Executing | Skipped => []
  | Ran _ | Completed | Finished => [instanceOf w]
  end.

Definition won (p : Phase) : bool :=
  match p with Ready | Skipped => false | _ => true end.

(** The record is due later than the observed one was. *)
Definition later (r : JobRunRecord) : Prop :=
  match expected with
  | Some r0 => next_due_at r0 < next_due_at r
  | None => True
  end.

(** The state of the record while the winner is in phase [p]. *)
Definition recordAt (p : Phase) (r : JobRunRecord) : Prop :=
  match p with
  | Ready | Skipped => False
  | Holding => status r = Claimed
  | Executing | Ran _ => status r = Running
  | Completed => (status r = Succeeded ∨ status r = Failed) ∧ later r
  | Finished => status r = Pending ∧ later r
  end.

(** Either nobody has claimed and the store holds the observed
    state, or exactly one instance is past its claim and the record
    and the executions are where that instance put them. *)
Definition invariant (s : System) : Prop :=
  (phase1 s = Ready ∧ phase2 s = Ready ∧
   store s !! name job = expected ∧ executions s = [])
  ∨ (∃ w r,
       won (phaseOf w s) = true ∧ won (phaseOf (other w) s) = false ∧
       store s !! name job = Some r ∧ recordAt (phaseOf w s) r ∧
       executions s = executed w (phaseOf w s)).
End Race.

#[global] Instance Who_eq_dec : EqDecision Who.
Proof. solve_decision. Defined.

(** The number of steps an interleaving gives to an instance. *)
Definition steps (w : Who) (interleaving : list Who) : nat :=
  length (filter (λ x, x = w) interleaving).

(** The number of steps an instance in phase [p] still has to take. *)
Definition remaining (p : Phase) : nat :=
  match p with
  | Ready => 5
  | Holding => 4
  | Executing => 3
  | Ran _ => 2
  | Completed => 1
  | Finished | Skipped => 0
  end.

(** A sample race: the job [publish-pages], due since time 90, and
    two instances that take turns. *)
Definition publishPages : JobDescriptor :=
  {| name := "publish-pages"; schedule := FixedInterval 60;
     handler := λ _, None; idempotent := true |}.

Definition dueRecord : JobRunRecord :=
  {| job_name := "publish-pages"; status := Pending; claimed_by := None;
     claimed_at := None; next_due_at := 90; last_error := None |}.

Definition alternating : list Who :=
  [First; Second; First; Second; First; Second; First; Second; First; Second].

End Dispatcher.


(** ** Clock and interval trigger *)

Module Clock.

(** Modelled from the spec: the clock is not part of the sources.  A
    started clock keeps its interval and the absolute time of its next
    fire (section 4.1). *)
Record Handle : Type := {
  interval : Z;
  next_fire : Z;
}.

(** Modelled from the spec: [start(intervalSeconds) -> handle]. *)
Definition start (intervalSeconds now : Z) : Handle :=
  {| interval := intervalSeconds; next_fire := now + intervalSeconds |}.

(** Modelled from the spec: the clock looked at when the time is
    [now]; it fires when the interval has elapsed and moves the next
    fire by one interval from the previous absolute fire time. *)
Definition poll (now : Z) (h : Handle) : bool * Handle :=
  if next_fire h <=? now
  then (true, {| interval := interval h; next_fire := next_fire h + interval h |})
  else (false, h).

(** Modelled from the spec: every running instance hosts its own
    clock, started from the [jobs] option; [jobs: false] starts none. *)
Definition startInstance (jobs : JobsOptions) (instance : string) (now : Z)
    (clocks : gmap string Handle) : gmap string Handle :=
  match jobs with
  | JobsOff => clocks
  | Jobs searchInterval => <[instance := start searchInterval now]> clocks
  end.

(** Modelled from the spec: the tick of one instance. *)
Definition tickInstance (instance : string) (now : Z)
    (clocks : gmap string Handle) : bool * gmap string Handle :=
  match clocks !! instance with
  | Some h => (fst (poll now h), <[instance := snd (poll now h)]> clocks)
  | None => (false, clocks)
  end.

End Clock.

(** ** Token lifecycle manager *)

Module Tokens.

(** Modelled from the spec: a time span is a number of seconds or a
    number followed by a unit, as in the documentation of
    [jwt.expiration] ([60], ['2 minutes'], ['10h'], ['7d']); the
    library that reads it is not part of the sources. *)
Definition digitOf (c : Ascii.ascii) : option Z :=
  let n := Z.of_nat (Ascii.nat_of_ascii c) in
  if (48 <=? n) && (n <=? 57) then Some (n - 48) else None.

Fixpoint readNumber (s : string) (acc : option Z) : option Z * string :=
  match s with
  | String c rest =>
      match digitOf c with
      | Some d => readNumber rest (Some (10 * default 0 acc + d))
      | None => (acc, s)
      end
  | EmptyString => (acc, s)
  end.

Fixpoint skipSpaces (s : string) : string :=
  match s with
  | String c rest => if Ascii.eqb c " "%char then skipSpaces rest else s
  | EmptyString => s
  end.

Definition unitSeconds (unit : string) : option Z :=
  if bool_decide (unit ∈ ["s"; "sec"; "secs"; "second"; "seconds"]) then Some 1
  else if bool_decide (unit ∈ ["m"; "min"; "mins"; "minute"; "minutes"]) then Some 60
  else if bool_decide (unit ∈ ["h"; "hr"; "hrs"; "hour"; "hours"]) then Some 3600
  else if bool_decide (unit ∈ ["d"; "day"; "days"]) then Some 86400
  else if bool_decide (unit ∈ ["w"; "week"; "weeks"]) then Some 604800
  else None.

Definition timeSpan (span : string) : option Z :=
  match readNumber span None with
  | (Some n, rest) =>
      let unit := skipSpaces rest in
      if String.eqb unit "" then Some n
      else (λ seconds, n * seconds) <$> unitSeconds unit
  | (None, _) => None
  end.

(** Modelled from the spec: the Session Token Record. *)
Record SessionTokenRecord : Type := {
  token_id : nat;
  user_id : nat;
  issued_at : Z;
  expires_at : Z;
  renewable_until : Z;
}.

Record TokenStore : Type := {
  tokens : gmap nat SessionTokenRecord;
  next_id : nat;
}.

(** Modelled from the spec: [issue(user_id, remember) -> token].  The
    expiry is the issuance time plus the short or the long default
    duration of the [jwt] options; the renewal window, configured in
    minutes, follows the expiry. *)
Definition issue (jwt : JwtOptions) (user : nat) (remember : bool) (now : Z)
    (st : TokenStore) : option (SessionTokenRecord * TokenStore) :=
  match timeSpan (if remember then expirationLong jwt else expiration jwt) with
  | Some duration =>
      let token :=
        {| token_id := next_id st; user_id := user; issued_at := now;
           expires_at := now + duration;
           renewable_until := now + duration + 60 * renewInterval jwt |} in
      Some (token,
            {| tokens := <[next_id st := token]> (tokens st);
               next_id := S (next_id st) |})
  | None => None
  end.

Inductive RenewOutcome : Type :=
  | Renewed (token : SessionTokenRecord)
  | Expired.

(** Modelled from the spec: [renew(token_id) -> token or Expired].  It
    succeeds only while [now < renewable_until]; the renewed token
    keeps its identifier and lifetime, counted from [now].  Outside the
    window, and for a token the store does not hold, the outcome is
    [Expired] and the store is left as it is. *)
Definition renew (id : nat) (now : Z) (st : TokenStore) : RenewOutcome * TokenStore :=
  match tokens st !! id with
  | Some t =>
      if now <? renewable_until t then
        let token :=
          {| token_id := token_id t; user_id := user_id t; issued_at := now;
             expires_at := now + (expires_at t - issued_at t);
             renewable_until := now + (renewable_until t - issued_at t) |} in
        (Renewed token, {| tokens := <[id := token]> (tokens st); next_id := next_id st |})
      else (Expired, st)
  | None => (Expired, st)
  end.

(** Modelled from the spec: [revoke(token_id)]. *)
Definition revoke (id : nat) (st : TokenStore) : TokenStore :=
  {| tokens := delete id (tokens st); next_id := next_id st |}.

(** A sample store: one token issued at time 0 for four hours, renewable
    for thirty minutes more. *)
Definition sampleToken : SessionTokenRecord :=
  {| token_id := 0; user_id := 7; issued_at := 0; expires_at := 14400;
     renewable_until := 16200 |}.

Definition sampleTokens : TokenStore :=
  {| tokens := {[0%nat := sampleToken]}; next_id := 1 |}.

End Tokens.

(** ** The process that defines the module *)

Module Process.

(** The random bytes a process draws, and how many it has drawn. *)
Record Rng : Type := {
  source : nat → nat;
  cursor : nat;
}.

(** The URL alphabet of the [nanoid] package. *)
Definition urlAlphabet : string :=
  "useandom-26T198340PX75pxJACKVERYMINDBUSHWOLF_GQZbfghjklqvwyzrict".

(** A reference [nanoid]: one character of the alphabet per random
    byte, chosen by the low six bits. *)
Definition symbolAt (byte : nat) : Ascii.ascii :=
  default "u"%char (String.get (byte mod 64) urlAlphabet).

Fixpoint draw (size : nat) (src : nat → nat) (at_ : nat) : string :=
  match size with
  | O => ""
  | S k => String (symbolAt (src at_)) (draw k src (S at_))
  end.

Definition referenceNanoid (size : nat) (g : Rng) : string * Rng :=
  (draw size (source g) (cursor g),
   {| source := source g; cursor := (cursor g + size)%nat |}).

Section ModuleDefinition.
(** [nanoid] of the package of that name, with the random state of the
    process made explicit. *)
Variable nanoid : nat → Rng → string * Rng.

(** Evaluating the [defineNuxtModule] call builds the [defaults]
    object, which calls [nanoid(64)] once. *)
Definition defineModule (g : Rng) : ModuleOptions * Rng :=
  let '(key, g) := nanoid 64 g in (defaults key, g).

(** The secret key in effect: the configured one, or the default. *)
Definition secretKeyInEffect (configured : option string) (moduleDefaults : ModuleOptions) : string :=
  default (secretKey (jwt moduleDefaults)) configured.

(** A process run: the module is defined, then the default secret key
    is used [uses] times with no key configured. *)
Definition observedKeys (g : Rng) (uses : nat) : list string :=
  let moduleDefaults := fst (defineModule g) in
  (λ _, secretKeyInEffect None moduleDefaults) <$> seq 0 uses.

End ModuleDefinition.

(** Two random sources. *)
Definition zeros : Rng := {| source := λ _, 0%nat; cursor := 0 |}.
Definition ones : Rng := {| source := λ _, 1%nat; cursor := 0 |}.

End Process.

(** ** More of [setup]: names for what it adds *)

(** Replace the route options, keeping the prefix. *)
Definition withRoutes (m : gmap string value) (o : ModuleOptions) : ModuleOptions :=
  with_api {| prefix := prefix (api o); routes := m |} o.

Section SetupEffects.
Context `{rt : Runtime}.

(** The pattern pushed to [nuxt.options.ignore] for a local uploads
    drive (the last statement of the [type === 'local'] block). *)
Definition uploadsIgnore (moduleOptions : ModuleOptions) : list string :=
  match drive (uploads moduleOptions) with
  | Some (DriveLocal path _) => ["**/" +:+ basename (default "./uploads" path) +:+ "/**/*"]
  | _ => []
  end.

(** The [fs] calls of the [type === 'local'] block. *)
Definition uploadsFsOps (moduleOptions : ModuleOptions) (uploadsDir : string)
    (nuxt : Nuxt) : list FsOp :=
  match drive (uploads moduleOptions) with
  | Some (DriveLocal _ urlPrefix) =>
      let symDir := pathJoin [rootDir nuxt; dir_public nuxt; default "uploads" urlPrefix] in
      [EnsureDir uploadsDir; Remove symDir]
      ++ (if isDevelopment || isTest
          then [EnsureSymlink uploadsDir symDir "junction"] else [])
  | _ => []
  end.

End SetupEffects.

(** A Nuxt instance of another version that already has a handler, a
    page, a hook, an alias and an ignore pattern, and what the sample
    runtime makes of it with the default options. *)
Definition busyNuxt : Nuxt :=
  {| nuxt_version := "3.9.0"; rootDir := "/app"; dir_public := "public";
     runtimeConfig_pruvious := None; runtimeConfig_public_pruvious := None;
     routeMiddleware := [];
     serverHandlers :=
       [{| route := "/health"; middleware := false; handler := "/app/server/health" |}];
     pages := [{| page_name := "home"; page_path := "/"; page_file := "/app/pages/index" |}];
     hooks := ["modules:done"];
     alias := {["~" := "/app"]};
     ignore := Some ["dist"]; pagesEnabled := false; warnings := [];
     fsOps := [] |}.

Definition busyStarted : Nuxt :=
  match @setup sampleRuntime (defaults "k") busyNuxt with
  | Started nuxt => nuxt
  | Refused _ => busyNuxt
  end.

(** The default options with every route option removed and, of the
    server middleware flags, only [uploads] left. *)
Definition allDisabled : ModuleOptions :=
  with_server {["uploads" := true]} (withRoutes ∅ (defaults "k")).

(** The [uploads] flag of [standardMiddleware.server] in the runtime
    configuration that [setup] leaves in the Nuxt instance. *)
Definition storedUploadsFlag (o : Outcome) : option bool :=
  match o with
  | Started nuxt =>
      match runtimeConfig_pruvious nuxt with
      | Some rc => server (rc_standardMiddleware rc) !! "uploads"
      | None => None
      end
  | Refused _ => None
  end.

Definition with_redis (r : option string) (o : ModuleOptions) : ModuleOptions :=
  {| api := api o; catchAllPages := catchAllPages o;
     customCapabilities := customCapabilities o; dashboard := dashboard o;
     database := database o; jobs := jobs o; jwt := jwt o;
     language := language o; migration := migration o; redis := r;
     singleCollectionsTable := singleCollectionsTable o;
     standardCollections := standardCollections o;
     standardFields := standardFields o; standardHooks := standardHooks o;
     standardJobs := standardJobs o;
     standardMiddleware := standardMiddleware o;
     standardTranslatableStrings := standardTranslatableStrings o;
     uploads := uploads o; pageCache := pageCache o |}.

(** * Properties *)

(** ** Values and lookups *)

Lemma truthy_string (s : string) : truthy (VStr s) = true ↔ s ≠ "".
Proof.
  simpl. unfold negb. destruct (String.eqb_spec s ""); split; congruence.
Qed.

Lemma nonEmpty_true (s : string) : nonEmpty s = true ↔ s ≠ "".
Proof.
  unfold nonEmpty, negb. destruct (String.eqb_spec s ""); split; congruence.
Qed.

Lemma flag_insert_ne (m : gmap string bool) (k k' : string) (b : bool) :
  k ≠ k' → flag (<[k := b]> m) k' = flag m k'.
Proof. intros Hne. unfold flag. by rewrite lookup_insert_ne. Qed.

Lemma flag_delete_ne (m : gmap string bool) (k k' : string) :
  k ≠ k' → flag (delete k m) k' = flag m k'.
Proof. intros Hne. unfold flag. by rewrite lookup_delete_ne. Qed.

(** ** What [setup] adds to the Nuxt instance *)

Section SetupFacts.
Context `{rt : Runtime}.

Lemma install_serverHandlers moduleOptions uploadsDir dbInfo nuxt nuxt' :
  install moduleOptions uploadsDir dbInfo nuxt = Started nuxt' →
  serverHandlers nuxt' = serverHandlers nuxt ++ registered moduleOptions.
Proof.
  unfold install, registered. intros Hinstall.
  destruct (drive (uploads moduleOptions)) as [[path urlPrefix | s3] |];
    [| | discriminate].
  - destruct (isDevelopment || isTest); injection Hinstall as <-; simpl;
      by rewrite <- !app_assoc.
  - injection Hinstall as <-; simpl. by rewrite <- !app_assoc.
Qed.

Lemma setup_serverHandlers options nuxt nuxt' :
  setup options nuxt = Started nuxt' →
  serverHandlers nuxt' = serverHandlers nuxt ++ registered (resolvedOptions options nuxt).
Proof.
  unfold setup, resolvedOptions. intros Hsetup.
  destruct (semverSatisfies (nuxt_version nuxt) "3.10");
    match type of Hsetup with
    | match install ?mo ?u ?d ?n with _ => _ end = _ =>
        destruct (install mo u d n) as [n1 | e] eqn:Hinstall; [| discriminate];
        destruct (validateLanguageOptions mo); [discriminate |];
        injection Hsetup as <-;
        apply install_serverHandlers in Hinstall
    end; exact Hinstall.
Qed.

End SetupFacts.


(** ** Startup validation and the page cache (C2) *)

(** C2, the claim as stated, fails: a configuration that selects the
    local page cache, run as one of two instances, is not refused.
    The number of instances is no part of the module options nor of the
    Nuxt instance, so it is a quantity of its own here.  With the
    sample runtime [setup] starts on the default options with
    [pageCache] set to the local backend. *)
Lemma local_page_cache_not_refused :
  ¬ (∀ (rt : Runtime) (options : ModuleOptions) (nuxt : Nuxt)
       (path : string) (instances : nat),
        pageCache options = Some (PageCacheLocal path) →
        (1 < instances)%nat →
        ∃ e, @setup rt options nuxt = Refused e).
Proof.
  intros Hclaim.
  destruct (Hclaim sampleRuntime
              (with_pageCache (Some (PageCacheLocal "./.cache/pages")) (defaults "k"))
              freshNuxt "./.cache/pages" 2%nat eq_refl ltac:(lia)) as [e He].
  apply (f_equal started) in He. vm_compute in He. discriminate He.
Qed.

(** C2, amended: [setup] does not look at the page cache option.  For
    every runtime, options and Nuxt instance, the outcome of [setup]
    (a refusal, or the resulting Nuxt instance) is the same for every
    value of [options.pageCache]: a local page cache is refused only if
    the same options with any other page cache setting are. *)
Theorem setup_ignores_pageCache (rt : Runtime) (options : ModuleOptions)
    (nuxt : Nuxt) (pc : option PageCache) :
  setup (with_pageCache pc options) nuxt = setup options nuxt.
Proof.
  unfold setup.
  change (runtimeConfigOf (with_pageCache pc options)) with (runtimeConfigOf options).
  reflexivity.
Qed.

(** ** Server middleware (C8) *)

Section ServerMiddlewareFacts.
Context `{rt : Runtime}.

Lemma filter_no_middleware (hs : list ServerHandler) :
  Forall (λ h, middleware h = false) hs → filter (λ h, middleware h = true) hs = [].
Proof.
  induction 1 as [| h hs Hh _ IH]; [done |].
  rewrite filter_cons, IH, Hh. by case_decide.
Qed.

Lemma filter_serverMiddleware moduleOptions :
  filter (λ h, middleware h = true) (serverMiddleware moduleOptions)
  = serverMiddleware moduleOptions.
Proof.
  unfold serverMiddleware. simpl.
  repeat match goal with
         | |- context [if ?c then _ else _] => destruct c
         end; reflexivity.
Qed.

Lemma plainRoute_no_middleware moduleOptions name :
  Forall (λ h, middleware h = false) (plainRoute moduleOptions name).
Proof. unfold plainRoute. case_match; repeat constructor. Qed.

Lemma apiRoutes_no_middleware moduleOptions :
  Forall (λ h, middleware h = false) (apiRoutes moduleOptions).
Proof.
  unfold apiRoutes. rewrite !Forall_app. split_and!.
  - unfold collectionsRoute. case_match; repeat constructor.
  - unfold plainRoutes. apply Forall_concat, Forall_fmap, Forall_forall.
    intros name _. apply plainRoute_no_middleware.
  - unfold pagesRoutes. repeat case_match; repeat constructor.
  - unfold previewsRoutes. repeat case_match; repeat constructor.
  - unfold translatableStringsRoutes. repeat case_match; repeat constructor.
  - unfold catchAllRoutes. repeat case_match; repeat constructor.
Qed.

Lemma seoRoutes_no_middleware moduleOptions :
  Forall (λ h, middleware h = false) (seoRoutes moduleOptions).
Proof.
  unfold seoRoutes. rewrite Forall_app. split; case_match; repeat constructor.
Qed.

(** C8, amended: the server middleware handlers [setup] adds are those
    of the flags [config], [language] and [auth], in that order, and no
    other handler it adds is a middleware; the [uploads] flag of
    [standardMiddleware.server], which is [true] in the defaults, never
    causes a registration: setting it to any value, or removing it,
    leaves everything [setup] registers unchanged.  Its only way into
    the output of [setup] is the [standardMiddleware] object, which is
    copied whole into the runtime configuration. *)
Theorem server_uploads_flag_has_no_effect (moduleOptions : ModuleOptions)
    (b : bool) (uploadsDir : string) (dbInfo : DatabaseInfo) (nuxt : Nuxt) (key : string) :
  let srv := server (standardMiddleware moduleOptions) in
  serverMiddleware moduleOptions =
    (if flag srv "config" then [serverMiddlewareHandler "config"] else [])
    ++ (if flag srv "language" then [serverMiddlewareHandler "language"] else [])
    ++ (if flag srv "auth" then [serverMiddlewareHandler "auth"] else [])
  ∧ filter (λ h, middleware h = true) (registered moduleOptions)
    = serverMiddleware moduleOptions
  ∧ (∀ options nuxt',
       setup options nuxt = Started nuxt' →
       resolvedOptions options nuxt = moduleOptions →
       filter (λ h, middleware h = true) (serverHandlers nuxt')
       = filter (λ h, middleware h = true) (serverHandlers nuxt)
         ++ serverMiddleware moduleOptions)
  ∧ install (with_server (<["uploads" := b]> srv) moduleOptions) uploadsDir dbInfo nuxt
    = install moduleOptions uploadsDir dbInfo nuxt
  ∧ install (with_server (delete "uploads" srv) moduleOptions) uploadsDir dbInfo nuxt
    = install moduleOptions uploadsDir dbInfo nuxt
  ∧ server (standardMiddleware (defaults key)) !! "uploads" = Some true
  ∧ (∀ options, rc_standardMiddleware (privateConfig options) = standardMiddleware options).
Proof.
  intros srv.
  assert (Hfilter : filter (λ h, middleware h = true) (registered moduleOptions)
                    = serverMiddleware moduleOptions).
  { unfold registered. rewrite !filter_app, filter_serverMiddleware.
    rewrite (filter_no_middleware _ (apiRoutes_no_middleware _)).
    rewrite (filter_no_middleware _ (seoRoutes_no_middleware _)).
    by rewrite !app_nil_r. }
  split_and!.
  - unfold serverMiddleware. simpl. by rewrite app_nil_r.
  - exact Hfilter.
  - intros options nuxt' Hsetup Hresolved.
    apply setup_serverHandlers in Hsetup.
    by rewrite Hsetup, Hresolved, filter_app, Hfilter.
  - unfold install, serverMiddleware. simpl.
    rewrite !flag_insert_ne by done. reflexivity.
  - unfold install, serverMiddleware. simpl.
    rewrite !flag_delete_ne by done. reflexivity.
  - reflexivity.
  - reflexivity.
Qed.

End ServerMiddlewareFacts.

(** C8, the claim as stated, fails: the outcome of [setup] is not the
    same for every value of the [uploads] flag, since the runtime
    configuration it leaves in the Nuxt instance holds the flag. *)
Lemma uploads_flag_reaches_runtime_config :
  ¬ (∀ (rt : Runtime) (options : ModuleOptions) (nuxt : Nuxt) (b : bool),
        @setup rt (with_server (<["uploads" := b]> (server (standardMiddleware options)))
                     options) nuxt
        = @setup rt options nuxt).
Proof.
  intros Hclaim.
  pose proof (Hclaim sampleRuntime (defaults "k") freshNuxt false) as Hsame.
  apply (f_equal storedUploadsFlag) in Hsame. vm_compute in Hsame.
  discriminate Hsame.
Qed.

(** The default options, resolved and installed by the sample runtime:
    three middleware handlers, none for [uploads]. *)
Lemma server_uploads_flag_has_no_effect_witness :
  let rt := sampleRuntime in
  started (setup (defaults "k") freshNuxt) = true
  ∧ ∀ nuxt', setup (defaults "k") freshNuxt = Started nuxt' →
      handler <$> filter (λ h, middleware h = true) (serverHandlers nuxt')
      = ["/module/./runtime/middleware/server/config";
         "/module/./runtime/middleware/server/language";
         "/module/./runtime/middleware/server/auth"].
Proof.
  intros rt. split; [vm_compute; reflexivity |].
  intros nuxt' Hstarted.
  destruct (@server_uploads_flag_has_no_effect rt
              (resolvedOptions (defaults "k") freshNuxt) true ""
              {| dialect := "sqlite"; storage := "./pruvious.db" |} freshNuxt "k")
    as (_ & _ & Hsetup & _).
  rewrite (Hsetup _ _ Hstarted eq_refl). vm_compute. reflexivity.
Defined.

(** ** Routes gated by the API prefix (C9) *)

Section PrefixGatedRoutes.
Context `{rt : Runtime}.

(** C9: with the empty API prefix [setup] adds no handler for
    [pages.get], [previews.get] and [translatable-strings.get],
    whatever their options, and for an enabled ['*'] only the [**]
    handler, so that the handlers it adds are the middleware, those of
    [collections], of the plain routes, of the catch-all and of the SEO
    routes; with a non-empty prefix each of the three enabled routes
    gets its base handler and its extended one, and ['*'] the handler
    of the prefix itself and the [**] one, and [setup] adds them
    between the plain routes and the SEO routes. *)
Theorem prefix_gates_routes (moduleOptions : ModuleOptions) :
  let p := prefix (api moduleOptions) in
  let at_ := apiRoute moduleOptions in
  (p = "" →
     pagesRoutes moduleOptions = []
     ∧ previewsRoutes moduleOptions = []
     ∧ translatableStringsRoutes moduleOptions = []
     ∧ (truthy (at_ "*") = true →
        catchAllRoutes moduleOptions
        = [apiHandler [VStr p; VStr "**"] "./runtime/api/catch-all"])
     ∧ (∀ options nuxt nuxt',
          setup options nuxt = Started nuxt' →
          resolvedOptions options nuxt = moduleOptions →
          serverHandlers nuxt'
          = serverHandlers nuxt ++ serverMiddleware moduleOptions
            ++ (collectionsRoute moduleOptions ++ plainRoutes moduleOptions
                ++ catchAllRoutes moduleOptions)
            ++ seoRoutes moduleOptions))
  ∧ (p ≠ "" →
     (truthy (at_ "pages.get") = true →
      pagesRoutes moduleOptions
      = [apiHandler [VStr p; at_ "pages.get"] "./runtime/api/pages.get";
         apiHandler [VStr p; at_ "pages.get"; VStr "**"] "./runtime/api/pages.get"])
     ∧ (truthy (at_ "previews.get") = true →
        previewsRoutes moduleOptions
        = [apiHandler [VStr p; at_ "previews.get"] "./runtime/api/previews.get";
           apiHandler [VStr p; at_ "previews.get"; VStr "**"]
                      "./runtime/api/previews.get"])
     ∧ (truthy (at_ "translatable-strings.get") = true →
        translatableStringsRoutes moduleOptions
        = [apiHandler [VStr p; at_ "translatable-strings.get"]
                      "./runtime/api/translatable-strings.get";
           apiHandler [VStr p; at_ "translatable-strings.get"; VStr ":domain"]
                      "./runtime/api/translatable-strings.get"])
     ∧ (truthy (at_ "*") = true →
        catchAllRoutes moduleOptions
        = [apiHandler [VStr p] "./runtime/api/catch-all";
           apiHandler [VStr p; VStr "**"] "./runtime/api/catch-all"])
     ∧ (∀ options nuxt nuxt',
          setup options nuxt = Started nuxt' →
          resolvedOptions options nuxt = moduleOptions →
          serverHandlers nuxt'
          = serverHandlers nuxt ++ serverMiddleware moduleOptions
            ++ (collectionsRoute moduleOptions ++ plainRoutes moduleOptions
                ++ pagesRoutes moduleOptions ++ previewsRoutes moduleOptions
                ++ translatableStringsRoutes moduleOptions
                ++ catchAllRoutes moduleOptions)
            ++ seoRoutes moduleOptions)).
Proof.
  cbv zeta. split.
  - intros Hp.
    assert (Hempty : nonEmpty (prefix (api moduleOptions)) = false).
    { by rewrite Hp. }
    assert (Hpages : pagesRoutes moduleOptions = []).
    { unfold pagesRoutes. rewrite Hempty. by case_match. }
    assert (Hpreviews : previewsRoutes moduleOptions = []).
    { unfold previewsRoutes. rewrite Hempty. by case_match. }
    assert (Hstrings : translatableStringsRoutes moduleOptions = []).
    { unfold translatableStringsRoutes. rewrite Hempty. by case_match. }
    split_and!; try done.
    + intros Hstar. unfold catchAllRoutes. by rewrite Hstar, Hempty, Hp.
    + intros options nuxt nuxt' Hsetup Hresolved.
      apply setup_serverHandlers in Hsetup.
      rewrite Hsetup, Hresolved. unfold registered, apiRoutes.
      by rewrite Hpages, Hpreviews, Hstrings.
  - intros Hp. apply nonEmpty_true in Hp.
    split_and!.
    + intros Hon. unfold pagesRoutes. by rewrite Hon, Hp.
    + intros Hon. unfold previewsRoutes. by rewrite Hon, Hp.
    + intros Hon. unfold translatableStringsRoutes. by rewrite Hon, Hp.
    + intros Hon. unfold catchAllRoutes. by rewrite Hon, Hp.
    + intros options nuxt nuxt' Hsetup Hresolved.
      apply setup_serverHandlers in Hsetup. by rewrite Hsetup, Hresolved.
Qed.
End PrefixGatedRoutes.

(** The default options on the sample runtime, with the prefix emptied
    and as they are. *)
Lemma prefix_gates_routes_witness :
  let rt := sampleRuntime in
  let bare := resolvedOptions (withPrefix "" (defaults "k")) freshNuxt in
  let full := resolvedOptions (defaults "k") freshNuxt in
  (prefix (api bare) = "" ∧ truthy (apiRoute bare "*") = true
   ∧ pagesRoutes bare = [] ∧ previewsRoutes bare = []
   ∧ translatableStringsRoutes bare = []
   ∧ catchAllRoutes bare
     = [{| route := "/**"; middleware := false;
           handler := "/module/./runtime/api/catch-all" |}]
   ∧ started (setup (withPrefix "" (defaults "k")) freshNuxt) = true
   ∧ ∀ nuxt', setup (withPrefix "" (defaults "k")) freshNuxt = Started nuxt' →
       route <$> serverHandlers nuxt'
       = [""; ""; ""; "/collections/**"; "/clear-cache"; "/dashboard"; "/install";
          "/installed"; "/login"; "/logout"; "/logout-all"; "/logout-others";
          "/process-job"; "/profile"; "/profile"; "/renew-token"; "/**";
          "/robots.txt"; "/sitemap.xml"; "/sitemap.xml/:index"])
  ∧ (prefix (api full) ≠ "" ∧ truthy (apiRoute full "pages.get") = true
     ∧ truthy (apiRoute full "*") = true
     ∧ pagesRoutes full
       = [{| route := "/api/pages"; middleware := false;
             handler := "/module/./runtime/api/pages.get" |};
          {| route := "/api/pages/**"; middleware := false;
             handler := "/module/./runtime/api/pages.get" |}]
     ∧ catchAllRoutes full
       = [{| route := "/api"; middleware := false;
             handler := "/module/./runtime/api/catch-all" |};
          {| route := "/api/**"; middleware := false;
             handler := "/module/./runtime/api/catch-all" |}]
     ∧ started (setup (defaults "k") freshNuxt) = true
     ∧ ∀ nuxt', setup (defaults "k") freshNuxt = Started nuxt' →
         route <$> serverHandlers nuxt'
         = [""; ""; ""; "/api/collections/**"; "/api/clear-cache"; "/api/dashboard";
            "/api/install"; "/api/installed"; "/api/login"; "/api/logout";
            "/api/logout-all"; "/api/logout-others"; "/api/process-job";
            "/api/profile"; "/api/profile"; "/api/renew-token";
            "/api/pages"; "/api/pages/**"; "/api/previews"; "/api/previews/**";
            "/api/translatable-strings"; "/api/translatable-strings/:domain";
            "/api"; "/api/**";
            "/robots.txt"; "/sitemap.xml"; "/sitemap.xml/:index"]).
Proof.
  intros rt bare full.
  destruct (@prefix_gates_routes rt bare) as [Hbare _].
  destruct (@prefix_gates_routes rt full) as [_ Hfull].
  destruct (Hbare eq_refl) as (H1 & H2 & H3 & H4 & H5).
  assert (Hne : prefix (api full) ≠ "") by discriminate.
  destruct (Hfull Hne) as (H6 & H7 & H8 & H9 & H10).
  split.
  - split; [reflexivity |]. split; [reflexivity |].
    split; [exact H1 |]. split; [exact H2 |]. split; [exact H3 |].
    split; [exact (H4 eq_refl) |]. split; [vm_compute; reflexivity |].
    intros nuxt' Hstarted. rewrite (H5 _ _ _ Hstarted eq_refl).
    vm_compute. reflexivity.
  - split; [exact Hne |]. split; [reflexivity |]. split; [reflexivity |].
    split; [exact (H6 eq_refl) |]. split; [exact (H9 eq_refl) |].
    split; [vm_compute; reflexivity |].
    intros nuxt' Hstarted. rewrite (H10 _ _ _ Hstarted eq_refl).
    rewrite (H6 eq_refl), (H7 eq_refl), (H8 eq_refl), (H9 eq_refl).
    vm_compute. reflexivity.
Defined.

(** ** The clear-cache endpoint (C3) *)

Lemma deleteByPrefix_all (cache : gmap string Cache.Entry) :
  Cache.deleteByPrefix "" cache = ∅.
Proof.
  unfold Cache.deleteByPrefix. apply map_empty. intros key.
  apply map_lookup_filter_None. right. intros entry _. simpl. by destruct key.
Qed.

Lemma get_empty (now : Z) (key : string) : Cache.get now key ∅ = None.
Proof. unfold Cache.get. by rewrite lookup_empty. Qed.

(** C3, the claim as stated, fails twice: the route option is tested for
    truthiness, and the empty string, which is not [false], adds no
    handler of the clear-cache endpoint; and with the default options,
    where the option is enabled and Redis is deactivated, a request to
    the endpoint is turned away and the cache keeps its page. *)
Lemma clear_cache_empty_path_not_registered :
  ¬ (∀ (rt : Runtime) (moduleOptions : ModuleOptions),
        apiRoute moduleOptions "clear-cache.post" ≠ VBool false →
        ∃ h, h ∈ registered moduleOptions
             ∧ handler h = resolveModulePath "./runtime/api/clear-cache.post")
  ∧ ¬ (∀ (rt : Runtime) (moduleOptions : ModuleOptions) (h : ServerHandler)
         (cache : gmap string Cache.Entry) (now : Z) (key : string),
        apiRoute moduleOptions "clear-cache.post" ≠ VBool false →
        h ∈ registered moduleOptions →
        handler h = resolveModulePath "./runtime/api/clear-cache.post" →
        ∃ cache', Cache.answer moduleOptions h true cache = Some (cache', Cache.Done)
                  ∧ Cache.get now key cache' = None).
Proof.
  split.
  - intros Hclaim.
    pose (rt := sampleRuntime).
    pose (moduleOptions := withRoute "clear-cache.post" (VStr "") (defaults "k")).
    assert (Hnone : Forall (λ h, handler h ≠ resolveModulePath "./runtime/api/clear-cache.post")
                           (registered moduleOptions)).
    { apply (bool_decide_unpack _). vm_compute. reflexivity. }
    assert (Hroute : apiRoute moduleOptions "clear-cache.post" = VStr "")
      by (vm_compute; reflexivity).
    destruct (Hclaim rt moduleOptions) as (h & Hin & Hh);
      [rewrite Hroute; discriminate |].
    rewrite Forall_forall in Hnone. exact (Hnone h Hin Hh).
  - intros Hclaim.
    pose (rt := sampleRuntime).
    pose (h := {| route := "/api/clear-cache"; middleware := false;
                  handler := "/module/./runtime/api/clear-cache.post" |}).
    assert (Hroute : apiRoute (defaults "k") "clear-cache.post" = VStr "clear-cache")
      by (vm_compute; reflexivity).
    assert (Hin : h ∈ registered (defaults "k")).
    { apply (bool_decide_unpack _). vm_compute. reflexivity. }
    destruct (Hclaim rt (defaults "k") h Cache.onePage 0 "page/en/home")
      as (cache' & Hanswer & _); [rewrite Hroute; discriminate | exact Hin | reflexivity |].
    vm_compute in Hanswer. discriminate Hanswer.
Qed.

Section ClearCache.
Context `{rt : Runtime}.

(** C3, amended: whenever the [clear-cache.post] route option is truthy
    (a non-empty string), [setup] adds exactly one handler for it, the
    module [./runtime/api/clear-cache.post] on the route joined from the
    API prefix and the option.  With Redis enabled, an administrative
    request answered by that handler invokes the invalidator with scope
    ["all"], and when it returns every read of the cache is a miss;
    with Redis deactivated, as in the defaults, the route is
    inaccessible and the cache is left as it is. *)
Theorem clear_cache_endpoint (moduleOptions : ModuleOptions) :
  let endpoint :=
    apiHandler [VStr (prefix (api moduleOptions));
                apiRoute moduleOptions "clear-cache.post"]
               "./runtime/api/clear-cache.post" in
  truthy (apiRoute moduleOptions "clear-cache.post") = true →
  plainRoute moduleOptions "clear-cache.post" = [endpoint]
  ∧ (∀ p, apiRoute moduleOptions "clear-cache.post" = VStr p → p ≠ "")
  ∧ endpoint ∈ registered moduleOptions
  ∧ (∀ options nuxt nuxt',
       setup options nuxt = Started nuxt' →
       resolvedOptions options nuxt = moduleOptions →
       endpoint ∈ serverHandlers nuxt')
  ∧ ∀ cache,
      (is_Some (redis moduleOptions) →
       Cache.answer moduleOptions endpoint true cache
       = Some (Cache.invalidate "all" None cache, Cache.Done)
       ∧ ∀ now key, Cache.get now key (Cache.invalidate "all" None cache) = None)
      ∧ (redis moduleOptions = None →
         ∀ administrative,
           Cache.answer moduleOptions endpoint administrative cache
           = Some (cache, Cache.Inaccessible)).
Proof.
  intros endpoint Hon.
  assert (Hroute : plainRoute moduleOptions "clear-cache.post" = [endpoint]).
  { unfold plainRoute. by rewrite Hon. }
  assert (Hin : endpoint ∈ registered moduleOptions).
  { unfold registered, apiRoutes, plainRoutes. simpl. rewrite Hroute.
    set_solver. }
  assert (Hanswer : ∀ administrative cache,
            Cache.answer moduleOptions endpoint administrative cache
            = Some (Cache.clearCachePost moduleOptions administrative cache)).
  { intros administrative cache. unfold Cache.answer. by rewrite decide_True. }
  split_and!; [exact Hroute | | exact Hin | |].
  - intros p Hp. rewrite Hp in Hon. by apply truthy_string.
  - intros options nuxt nuxt' Hsetup Hresolved.
    apply setup_serverHandlers in Hsetup. rewrite Hsetup, Hresolved.
    apply elem_of_app. by right.
  - intros cache. split.
    + intros [conn Hredis]. rewrite Hanswer. unfold Cache.clearCachePost.
      rewrite Hredis. split; [reflexivity |]. intros now key.
      unfold Cache.invalidate. simpl.
      by rewrite deleteByPrefix_all, get_empty.
    + intros Hredis administrative. rewrite Hanswer. unfold Cache.clearCachePost.
      by rewrite Hredis.
Qed.
End ClearCache.

(** The default options, resolved and installed by the sample runtime,
    without Redis and with it. *)
Lemma clear_cache_endpoint_witness :
  let rt := sampleRuntime in
  let moduleOptions := resolvedOptions (defaults "k") freshNuxt in
  let withRedis := with_redis (Some "redis://127.0.0.1:6379/0") moduleOptions in
  let endpoint :=
    {| route := "/api/clear-cache"; middleware := false;
       handler := "/module/./runtime/api/clear-cache.post" |} in
  truthy (apiRoute moduleOptions "clear-cache.post") = true
  ∧ plainRoute moduleOptions "clear-cache.post" = [endpoint]
  ∧ started (setup (defaults "k") freshNuxt) = true
  ∧ (∀ nuxt', setup (defaults "k") freshNuxt = Started nuxt' →
              endpoint ∈ serverHandlers nuxt')
  ∧ redis moduleOptions = None
  ∧ Cache.answer moduleOptions endpoint true Cache.onePage
    = Some (Cache.onePage, Cache.Inaccessible)
  ∧ is_Some (redis withRedis)
  ∧ Cache.answer withRedis endpoint true Cache.onePage
    = Some (Cache.invalidate "all" None Cache.onePage, Cache.Done)
  ∧ Cache.get 0 "page/en/home" (Cache.invalidate "all" None Cache.onePage) = None.
Proof.
  intros rt moduleOptions withRedis endpoint.
  assert (Hon : truthy (apiRoute moduleOptions "clear-cache.post") = true)
    by (vm_compute; reflexivity).
  assert (Hon' : truthy (apiRoute withRedis "clear-cache.post") = true)
    by (vm_compute; reflexivity).
  assert (Hoff : redis moduleOptions = None) by reflexivity.
  assert (Hredis : is_Some (redis withRedis)) by (by eexists).
  destruct (@clear_cache_endpoint rt moduleOptions Hon)
    as (Hroute & _ & _ & Hsetup & Hrequest).
  destruct (@clear_cache_endpoint rt withRedis Hon') as (_ & _ & _ & _ & Hrequest').
  destruct (Hrequest Cache.onePage) as [_ Hinaccessible].
  destruct (Hrequest' Cache.onePage) as [Hdone _].
  destruct (Hdone Hredis) as [Hanswer Hmiss].
  split; [exact Hon |]. split; [exact Hroute |].
  split; [vm_compute; reflexivity |].
  split; [intros nuxt' Hstarted; exact (Hsetup _ _ _ Hstarted eq_refl) |].
  split; [exact Hoff |]. split; [exact (Hinaccessible Hoff true) |].
  split; [exact Hredis |]. split; [exact Hanswer |]. exact (Hmiss 0 "page/en/home").
Defined.

(** ** Standard jobs (C4) *)

Lemma dom_allTrue (keys : list string) : dom (allTrue keys) = list_to_set keys.
Proof.
  unfold allTrue. rewrite dom_list_to_map_L. f_equal.
  rewrite <- list_fmap_compose. apply list_fmap_id.
Qed.

Lemma allTrue_lookup (keys : list string) (k : string) :
  k ∈ keys → allTrue keys !! k = Some true.
Proof.
  intros Hin. unfold allTrue.
  destruct (list_to_map ((λ k0, (k0, true)) <$> keys) !! k) as [b |] eqn:Hk.
  - apply elem_of_list_to_map_2 in Hk. apply list_elem_of_fmap in Hk as (k' & Heq & _).
    by injection Heq as _ ->.
  - apply not_elem_of_list_to_map in Hk. exfalso. apply Hk.
    rewrite <- list_fmap_compose. by rewrite list_fmap_id.
Qed.

(** C4: the defaults hold a flag for exactly the three standard jobs
    [clean-expired-previews], [clean-expired-tokens] and
    [publish-pages], and each of the three flags is [true]. *)
Theorem standard_jobs_flags (key : string) :
  dom (standardJobs (defaults key))
  = {["clean-expired-previews"; "clean-expired-tokens"; "publish-pages"]}
  ∧ (∀ name, name ∈ dom (standardJobs (defaults key)) ↔
             standardJobs (defaults key) !! name = Some true).
Proof.
  simpl. split.
  - rewrite dom_allTrue. set_solver.
  - intros name. rewrite dom_allTrue. split.
    + intros Hin. apply allTrue_lookup. set_solver.
    + intros Hsome. apply elem_of_dom_2 in Hsome. by rewrite dom_allTrue in Hsome.
Qed.

(** ** The race for a due job (C1) *)

Module DispatcherFacts.
Import Dispatcher.

Section RaceFacts.
Variable job : JobDescriptor.
Variable instance1 instance2 : string.
Variable now1 now2 : Z.
Variable expected : option JobRunRecord.
Variable seconds : Z.
Hypothesis fixed : schedule job = FixedInterval seconds.
Hypothesis positive : 0 < seconds.
Hypothesis due1 : due expected now1.
Hypothesis due2 : due expected now2.

Local Abbreviation step := (Dispatcher.step job instance1 instance2 now1 now2 expected).
Local Abbreviation run := (Dispatcher.run job instance1 instance2 now1 now2 expected).
Local Abbreviation invariant := (Dispatcher.invariant job instance1 instance2 expected).
Local Abbreviation instanceOf := (Dispatcher.instanceOf instance1 instance2).
Local Abbreviation nowOf := (Dispatcher.nowOf now1 now2).
Local Abbreviation executed := (Dispatcher.executed instance1 instance2).

Lemma due_nowOf w : due expected (nowOf w).
Proof. by destruct w. Qed.

Lemma phaseOf_update_same w st ex p s : phaseOf w (update w st ex p s) = p.
Proof. by destruct w. Qed.

Lemma phaseOf_update_other w st ex p s :
  phaseOf (other w) (update w st ex p s) = phaseOf (other w) s.
Proof. by destruct w. Qed.

Lemma store_update w st ex p s : store (update w st ex p s) = st.
Proof. by destruct w. Qed.

Lemma executions_update w st ex p s : executions (update w st ex p s) = ex.
Proof. by destruct w. Qed.

Lemma other_other w : other (other w) = w.
Proof. by destruct w. Qed.

Lemma who_cases w w0 : w = w0 ∨ w = other w0.
Proof. destruct w, w0; auto. Qed.

(** The claim on the observed state succeeds and leaves a claimed record. *)
Lemma claim_first instance now (st : Store) :
  due expected now → st !! name job = expected →
  ∃ r, claim instance now (name job) expected st
       = (ClaimOk, <[name job := r]> st) ∧ status r = Claimed.
Proof.
  intros Hdue Hst. unfold claim. rewrite decide_True by done.
  destruct expected as [r0 |]; simpl in Hdue.
  - destruct Hdue as [-> _]. eauto.
  - eauto.
Qed.

(** Once the record has moved, the claim is a conflict and writes nothing. *)
Lemma claim_late instance now (st : Store) :
  st !! name job ≠ expected →
  claim instance now (name job) expected st = (ClaimConflict, st).
Proof. intros Hst. unfold claim. by rewrite decide_False. Qed.

Lemma moved_record now p r :
  due expected now → won p = true → recordAt expected p r → Some r ≠ expected.
Proof.
  intros Hdue Hwon Hat Heq. unfold due in Hdue. rewrite <- Heq in Hdue.
  destruct Hdue as [Hpending _]. unfold recordAt, later in Hat.
  rewrite <- Heq in Hat.
  destruct p; simpl in *; try congruence; try lia.
Qed.

Lemma step_invariant w s : invariant s → invariant (step w s).
Proof.
  intros [(Hp1 & Hp2 & Hst & Hex) | (w0 & r & Hwon & Hlost & Hst & Hat & Hex)].
  - (* nobody has claimed yet *)
    assert (Hready : phaseOf w s = Ready) by (by destruct w).
    assert (Hother : phaseOf (other w) s = Ready) by (by destruct w).
    destruct (claim_first (instanceOf w) (nowOf w) (store s) (due_nowOf w) Hst)
      as (r & Hclaim & Hclaimed).
    unfold Dispatcher.step. rewrite Hready, Hclaim.
    right. exists w, r.
    rewrite phaseOf_update_same, phaseOf_update_other, store_update,
      executions_update, Hother, lookup_insert_eq.
    by rewrite Hex.
  - destruct (who_cases w w0) as [-> | ->].
    + (* the winner moves on *)
      right. exists w0. unfold Dispatcher.step.
      destruct (phaseOf w0 s) eqn:Hphase; simpl in Hwon; try discriminate.
      * exists (setStatus Running r).
        rewrite phaseOf_update_same, phaseOf_update_other, store_update,
          executions_update, lookup_alter_eq, Hst. by simpl in *.
      * exists r.
        rewrite phaseOf_update_same, phaseOf_update_other, store_update,
          executions_update. simpl in *. by rewrite Hex.
      * exists (complete (schedule job) (nowOf w0) outcome r).
        rewrite phaseOf_update_same, phaseOf_update_other, store_update,
          executions_update, lookup_alter_eq, Hst. simpl in *.
        split_and!; try done.
        -- destruct outcome; auto.
        -- unfold later. rewrite fixed. simpl.
           pose proof (due_nowOf w0) as Hdue. unfold due in Hdue.
           destruct expected as [r0 |]; [| done]. lia.
      * exists (rearm r).
        rewrite phaseOf_update_same, phaseOf_update_other, store_update,
          executions_update, lookup_alter_eq, Hst. simpl in *.
        destruct Hat as [_ Hlater]. split_and!; try done.
      * exists r. by rewrite Hphase.
    + (* the other instance comes too late *)
      assert (Hmoved : store s !! name job ≠ expected).
      { rewrite Hst. eapply moved_record; [apply (due_nowOf w0) | done | done]. }
      right. exists w0, r. unfold Dispatcher.step.
      destruct (phaseOf (other w0) s) eqn:Hphase; simpl in Hlost; try discriminate.
      * rewrite (claim_late _ _ _ Hmoved), phaseOf_update_same, store_update,
          executions_update.
        replace (phaseOf w0 (update (other w0) (store s) (executions s) Skipped s))
          with (phaseOf w0 s) by (by destruct w0).
        done.
      * by rewrite Hphase.
Qed.

Lemma run_invariant interleaving s : invariant s → invariant (run interleaving s).
Proof.
  revert s. induction interleaving as [| w l IH]; intros s Hs; [done |].
  simpl. apply IH. by apply step_invariant.
Qed.

Lemma initial_invariant st : st !! name job = expected → invariant (initial st).
Proof. intros Hst. by left. Qed.


Lemma step_other w s : phaseOf (other w) (step w s) = phaseOf (other w) s.
Proof.
  unfold Dispatcher.step.
  repeat case_match; try done; by rewrite phaseOf_update_other.
Qed.

Lemma step_remaining w s :
  (remaining (phaseOf w (step w s)) ≤ pred (remaining (phaseOf w s)))%nat.
Proof.
  unfold Dispatcher.step.
  destruct (phaseOf w s) eqn:Hphase;
    repeat case_match; rewrite ?phaseOf_update_same, ?Hphase; simpl; lia.
Qed.

Lemma run_remaining w interleaving s :
  (remaining (phaseOf w (run interleaving s))
   ≤ remaining (phaseOf w s) - steps w interleaving)%nat.
Proof.
  revert s. induction interleaving as [| w' l IH]; intros s.
  { unfold steps. simpl. lia. }
  change (run (w' :: l) s) with (run l (step w' s)).
  etrans; [apply IH |]. unfold steps. rewrite filter_cons.
  destruct (who_cases w' w) as [-> | ->].
  - rewrite decide_True by done. simpl.
    pose proof (step_remaining w s). lia.
  - rewrite decide_False by (by destruct w).
    rewrite <- (other_other w) at 1. rewrite step_other, other_other. lia.
Qed.

Lemma remaining_ready p : (remaining p ≤ 5)%nat.
Proof. destruct p; simpl; lia. Qed.

(** C1: two dispatcher instances that both observed the same due
    record of a job with a fixed (positive) interval attempt the atomic
    claim; whatever the interleaving of their steps, the handler is
    executed at most once, and once both instances are through (each
    took its five steps) exactly one of them claimed and finished, it
    alone executed the handler, and the other one skipped the job on
    [ClaimConflict], which is also what its claim returns on the final
    store. *)
Theorem race_has_one_winner (st : Store) (interleaving : list Who) :
  st !! name job = expected →
  let s := run interleaving (initial st) in
  (length (executions s) ≤ 1)%nat
  ∧ ((5 ≤ steps First interleaving)%nat → (5 ≤ steps Second interleaving)%nat →
     ∃ w, phaseOf w s = Finished ∧ phaseOf (other w) s = Skipped
          ∧ executions s = [instanceOf w]
          ∧ (instance1 ≠ instance2 → instanceOf (other w) ∉ executions s)
          ∧ claim (instanceOf (other w)) (nowOf (other w)) (name job) expected (store s)
            = (ClaimConflict, store s)).
Proof.
  intros Hst s.
  pose proof (run_invariant interleaving _ (initial_invariant st Hst)) as Hinv.
  fold s in Hinv. split.
  - destruct Hinv as [(_ & _ & _ & ->) | (w & r & _ & _ & _ & _ & ->)]; [simpl; lia |].
    destruct (phaseOf w s); simpl; lia.
  - intros Hsteps1 Hsteps2.
    assert (Hdone : ∀ w, remaining (phaseOf w s) = 0%nat).
    { intros w. pose proof (run_remaining w interleaving (initial st)) as Hle.
      fold s in Hle. pose proof (remaining_ready (phaseOf w (initial st))).
      destruct w; lia. }
    destruct Hinv as [(Hp1 & _) | (w & r & Hwon & Hlost & Hrecord & Hat & Hex)].
    + specialize (Hdone First). simpl in Hdone. by rewrite Hp1 in Hdone.
    + exists w. pose proof (Hdone w) as Hw. pose proof (Hdone (other w)) as Ho.
      assert (Hmoved : store s !! name job ≠ expected).
      { rewrite Hrecord. eapply moved_record; [apply (due_nowOf w) | done | done]. }
      destruct (phaseOf w s); try discriminate.
      destruct (phaseOf (other w) s); try discriminate.
      split_and!; try done.
      * intros Hne. rewrite Hex. simpl.
        rewrite list_elem_of_singleton. destruct w; simpl; congruence.
      * by apply claim_late.
Qed.

End RaceFacts.

(** The sample race. *)
Lemma race_has_one_winner_witness :
  let s := run publishPages "a" "b" 100 101 (Some dueRecord) alternating
             (initial {["publish-pages" := dueRecord]}) in
  schedule publishPages = FixedInterval 60 ∧ 0 < 60
  ∧ due (Some dueRecord) 100 ∧ due (Some dueRecord) 101
  ∧ ({["publish-pages" := dueRecord]} : Store) !! name publishPages = Some dueRecord
  ∧ (5 ≤ steps First alternating)%nat ∧ (5 ≤ steps Second alternating)%nat
  ∧ (length (executions s) ≤ 1)%nat
  ∧ ∃ w, phaseOf w s = Finished ∧ phaseOf (other w) s = Skipped
         ∧ executions s = [instanceOf "a" "b" w]
         ∧ ("a" ≠ "b" → instanceOf "a" "b" (other w) ∉ executions s)
         ∧ claim (instanceOf "a" "b" (other w)) (nowOf 100 101 (other w))
                 (name publishPages) (Some dueRecord) (store s)
           = (ClaimConflict, store s).
Proof.
  intros s.
  assert (H60 : 0 < 60) by lia.
  assert (Hdue1 : due (Some dueRecord) 100) by (split; [reflexivity | simpl; lia]).
  assert (Hdue2 : due (Some dueRecord) 101) by (split; [reflexivity | simpl; lia]).
  assert (Hst : ({["publish-pages" := dueRecord]} : Store) !! name publishPages
                = Some dueRecord) by reflexivity.
  assert (H1 : (5 ≤ steps First alternating)%nat) by (vm_compute; lia).
  assert (H2 : (5 ≤ steps Second alternating)%nat) by (vm_compute; lia).
  destruct (race_has_one_winner publishPages "a" "b" 100 101 (Some dueRecord) 60
              eq_refl H60 Hdue1 Hdue2 _ alternating Hst) as [Hsafe Hlive].
  split_and!; try done. exact (Hlive H1 H2).
Defined.

End DispatcherFacts.

(** ** The search interval and the clocks (C5) *)

Module ClockFacts.
Import Clock.

Lemma poll_fires (now : Z) (h : Handle) :
  fst (poll now h) = bool_decide (next_fire h ≤ now).
Proof.
  unfold poll. destruct (Z.leb_spec (next_fire h) now).
  - by rewrite bool_decide_eq_true_2.
  - by rewrite bool_decide_eq_false_2 by lia.
Qed.

(** C5: the job search interval is an option, 60 (seconds) in the
    defaults; an instance started with an interval has a clock of its
    own that fires once that interval has elapsed and then moves its
    next fire by the same interval, [jobs: false] starts no clock, and
    starting or ticking one instance leaves the clocks of all other
    instances as they were. *)
Theorem search_interval_default (key : string) :
  jobs (defaults key) = Jobs 60
  ∧ (∀ (clocks : gmap string Handle) (instance : string) (now : Z),
       startInstance JobsOff instance now clocks = clocks)
  ∧ ∀ (searchInterval : Z) (clocks : gmap string Handle) (instance : string) (now t : Z),
      let started := startInstance (Jobs searchInterval) instance now clocks in
      let ticked := tickInstance instance t started in
      started !! instance
      = Some {| interval := searchInterval; next_fire := now + searchInterval |}
      ∧ fst ticked = bool_decide (now + searchInterval ≤ t)
      ∧ snd ticked !! instance
        = Some {| interval := searchInterval;
                  next_fire := if bool_decide (now + searchInterval ≤ t)
                               then now + searchInterval + searchInterval
                               else now + searchInterval |}
      ∧ delete instance started = delete instance clocks
      ∧ delete instance (snd ticked) = delete instance clocks.
Proof.
  split; [reflexivity |]. split; [reflexivity |].
  intros searchInterval clocks instance now t. simpl.
  unfold tickInstance. rewrite lookup_insert_eq. simpl.
  split_and!.
  - reflexivity.
  - by rewrite poll_fires.
  - rewrite lookup_insert_eq. f_equal. unfold poll, start. simpl.
    destruct (Z.leb_spec (now + searchInterval) t).
    + by rewrite bool_decide_eq_true_2.
    + by rewrite bool_decide_eq_false_2 by lia.
  - apply delete_insert_eq.
  - by rewrite insert_insert_eq, delete_insert_eq.
Qed.

End ClockFacts.

(** ** Token expiry and renewal (C6, C7) *)

Module TokenFacts.
Import Tokens.

(** C6: a token issued with [remember = false] expires at the issuance
    time plus the short default duration, and with [remember = true] at
    the issuance time plus the long one; with the defaults (['4 hours'],
    ['7 days']) that is 14400 and 604800 seconds after issuance. *)
Theorem issue_expiry (key : string) (user : nat) (now : Z) (st : TokenStore) :
  expiration (jwt (defaults key)) = "4 hours"
  ∧ expirationLong (jwt (defaults key)) = "7 days"
  ∧ (expires_at ∘ fst) <$> issue (jwt (defaults key)) user false now st
    = Some (now + 4 * 3600)
  ∧ (expires_at ∘ fst) <$> issue (jwt (defaults key)) user true now st
    = Some (now + 7 * 86400)
  ∧ ∀ (options : JwtOptions) (remember : bool),
      (expires_at ∘ fst) <$> issue options user remember now st
      = (λ duration, now + duration)
          <$> timeSpan (if remember then expirationLong options else expiration options)
      ∧ (issued_at ∘ fst) <$> issue options user remember now st
        = (λ _, now)
            <$> timeSpan (if remember then expirationLong options else expiration options).
Proof.
  split_and!; try reflexivity.
  intros options remember. unfold issue.
  by destruct (timeSpan _).
Qed.

(** C7: a token is issued with a renewal window that ends
    [renewInterval] minutes after its expiry, 30 in the defaults.  For
    a stored token, [renew] succeeds exactly while
    [now < renewable_until]: it keeps the token and its lifetime and
    counts expiry and window from the time of renewal, which, after
    the time of issue, is a later expiry; from [renewable_until] on it
    returns [Expired] and leaves the store as it is. *)
Theorem renew_window (key : string) (st : TokenStore) (id : nat)
    (t : SessionTokenRecord) (now : Z) :
  tokens st !! id = Some t →
  renewInterval (jwt (defaults key)) = 30
  ∧ (∀ options user remember issued st0 token st1,
       issue options user remember issued st0 = Some (token, st1) →
       renewable_until token = expires_at token + 60 * renewInterval options
       ∧ tokens st1 !! token_id token = Some token)
  ∧ (now < renewable_until t →
     ∃ t', renew id now st
           = (Renewed t', {| tokens := <[id := t']> (tokens st); next_id := next_id st |})
           ∧ token_id t' = token_id t ∧ user_id t' = user_id t
           ∧ issued_at t' = now
           ∧ expires_at t' = now + (expires_at t - issued_at t)
           ∧ renewable_until t' = now + (renewable_until t - issued_at t)
           ∧ (issued_at t < now → expires_at t < expires_at t'))
  ∧ (renewable_until t ≤ now → renew id now st = (Expired, st)).
Proof.
  intros Hid. split; [reflexivity |]. split; [| unfold renew; rewrite Hid; split].
  - intros options user remember issued st0 token st1. unfold issue.
    destruct (timeSpan _) as [duration |]; [| discriminate].
    intros [= <- <-]. simpl. split; [reflexivity | apply lookup_insert_eq].
  - intros Hin. apply Z.ltb_lt in Hin. rewrite Hin.
    eexists. split; [reflexivity |]. simpl. split_and!; try done. lia.
  - intros Hout. apply Z.ltb_ge in Hout. by rewrite Hout.
Qed.

(** The sample token, issued with the defaults, then renewed inside its
    window and after it. *)
Lemma renew_window_witness :
  issue (jwt (defaults "k")) 7 false 0 {| tokens := ∅; next_id := 0 |}
  = Some (sampleToken, sampleTokens)
  ∧ renewable_until sampleToken = expires_at sampleToken + 60 * 30
  ∧ tokens sampleTokens !! 0%nat = Some sampleToken
  ∧ 100 < renewable_until sampleToken
  ∧ renewable_until sampleToken ≤ 16200
  ∧ (∃ t', fst (renew 0 100 sampleTokens) = Renewed t'
           ∧ expires_at t' = 14500 ∧ renewable_until t' = 16300)
  ∧ renew 0 16200 sampleTokens = (Expired, sampleTokens).
Proof.
  assert (Hissue : issue (jwt (defaults "k")) 7 false 0 {| tokens := ∅; next_id := 0 |}
                   = Some (sampleToken, sampleTokens)) by reflexivity.
  assert (Hid : tokens sampleTokens !! 0%nat = Some sampleToken) by reflexivity.
  assert (Hin : 100 < renewable_until sampleToken) by (simpl; lia).
  assert (Hout : renewable_until sampleToken ≤ 16200) by (simpl; lia).
  destruct (renew_window "k" sampleTokens 0 sampleToken 100 Hid)
    as (_ & Hissued & Hrenew & _).
  destruct (renew_window "k" sampleTokens 0 sampleToken 16200 Hid) as (_ & _ & _ & Hexpired).
  split; [exact Hissue |].
  split; [exact (proj1 (Hissued _ _ _ _ _ _ _ Hissue)) |].
  split; [exact Hid |]. split; [exact Hin |]. split; [exact Hout |]. split.
  - destruct (Hrenew Hin) as (t' & Heq & _ & _ & _ & Hexp & Hwindow & _).
    exists t'. split; [by rewrite Heq |]. split; [exact Hexp | exact Hwindow].
  - exact (Hexpired Hout).
Defined.

End TokenFacts.

(** ** The default secret key (C10) *)

Module ProcessFacts.
Import Process.

Lemma draw_length (size : nat) (src : nat → nat) (at_ : nat) :
  String.length (draw size src at_) = size.
Proof.
  revert at_. induction size as [| k IH]; intros at_; simpl; [done |].
  by rewrite IH.
Qed.

Lemma fmap_const_seq {A} (x : A) (start len : nat) :
  (λ _, x) <$> seq start len = replicate len x.
Proof.
  revert start. induction len as [| k IH]; intros start; simpl; [done |].
  by rewrite IH.
Qed.

Section DefaultKey.
Variable nanoid : nat → Rng → string * Rng.
Hypothesis nanoid_length : ∀ size g, String.length (fst (nanoid size g)) = size.
Hypothesis nanoid_random : ∃ g1 g2, fst (nanoid 64 g1) ≠ fst (nanoid 64 g2).

Lemma defineModule_key g :
  secretKey (jwt (fst (defineModule nanoid g))) = fst (nanoid 64 g).
Proof. unfold defineModule. by destruct (nanoid 64 g). Qed.

(** C10: the default secret key is the one identifier of 64 characters
    that [nanoid(64)] returns when the module is defined: the call is
    made once, every use of the default in the process sees that value,
    a configured key takes its place, and the key depends on the random
    state of the process, so that two runs need not get the same key. *)
Theorem default_secret_key (g : Rng) (uses : nat) :
  let moduleDefaults := fst (defineModule nanoid g) in
  String.length (secretKey (jwt moduleDefaults)) = 64%nat
  ∧ snd (defineModule nanoid g) = snd (nanoid 64 g)
  ∧ observedKeys nanoid g uses = replicate uses (fst (nanoid 64 g))
  ∧ (∀ configured, secretKeyInEffect (Some configured) moduleDefaults = configured)
  ∧ ∃ g1 g2, secretKeyInEffect None (fst (defineModule nanoid g1))
             ≠ secretKeyInEffect None (fst (defineModule nanoid g2)).
Proof.
  cbv zeta. split_and!.
  - by rewrite defineModule_key, nanoid_length.
  - unfold defineModule. by destruct (nanoid 64 g).
  - unfold observedKeys, secretKeyInEffect. cbn [default].
    by rewrite defineModule_key, fmap_const_seq.
  - done.
  - destruct nanoid_random as (g1 & g2 & Hne). exists g1, g2.
    unfold secretKeyInEffect. cbn [default]. by rewrite !defineModule_key.
Qed.
End DefaultKey.

(** The reference [nanoid] meets the two assumptions. *)
Lemma default_secret_key_witness :
  (∀ size g, String.length (fst (referenceNanoid size g)) = size)
  ∧ (∃ g1 g2, fst (referenceNanoid 64 g1) ≠ fst (referenceNanoid 64 g2))
  ∧ String.length (secretKey (jwt (fst (defineModule referenceNanoid zeros)))) = 64%nat
  ∧ observedKeys referenceNanoid zeros 3
    = replicate 3 (fst (referenceNanoid 64 zeros)).
Proof.
  assert (Hlength : ∀ size g, String.length (fst (referenceNanoid size g)) = size).
  { intros size g. apply draw_length. }
  assert (Hrandom : ∃ g1 g2, fst (referenceNanoid 64 g1) ≠ fst (referenceNanoid 64 g2)).
  { exists zeros, ones. vm_compute. discriminate. }
  destruct (default_secret_key referenceNanoid Hlength Hrandom zeros 3)
    as (Hlen & _ & Hkeys & _).
  split; [exact Hlength |]. split; [exact Hrandom |]. split; [exact Hlen | exact Hkeys].
Defined.

End ProcessFacts.

(** * Further properties of [setup] *)

(** ** Route options *)

Section RouteOptionFacts.
Context `{rt : Runtime}.

(** Two route objects that differ only where both are falsy. *)
Lemma collectionsRoute_falsy moduleOptions m :
  (∀ k, prop (routes (api moduleOptions)) k = prop m k
        ∨ (truthy (prop (routes (api moduleOptions)) k) = false ∧ truthy (prop m k) = false)) →
  collectionsRoute (withRoutes m moduleOptions) = collectionsRoute moduleOptions.
Proof.
  intros Hsame. unfold collectionsRoute, apiRoute. simpl.
  by destruct (Hsame "collections") as [-> | [-> ->]].
Qed.

Lemma plainRoute_falsy moduleOptions m name :
  (∀ k, prop (routes (api moduleOptions)) k = prop m k
        ∨ (truthy (prop (routes (api moduleOptions)) k) = false ∧ truthy (prop m k) = false)) →
  plainRoute (withRoutes m moduleOptions) name = plainRoute moduleOptions name.
Proof.
  intros Hsame. unfold plainRoute, apiRoute. simpl.
  by destruct (Hsame name) as [-> | [-> ->]].
Qed.

Lemma apiRoutes_falsy moduleOptions m :
  (∀ k, prop (routes (api moduleOptions)) k = prop m k
        ∨ (truthy (prop (routes (api moduleOptions)) k) = false ∧ truthy (prop m k) = false)) →
  apiRoutes (withRoutes m moduleOptions) = apiRoutes moduleOptions.
Proof.
  intros Hsame. unfold apiRoutes.
  rewrite (collectionsRoute_falsy _ _ Hsame). f_equal.
  f_equal.
  { unfold plainRoutes. f_equal. apply list_fmap_ext. intros _ name _.
    by apply plainRoute_falsy. }
  f_equal.
  { unfold pagesRoutes, apiRoute. simpl.
    by destruct (Hsame "pages.get") as [-> | [-> ->]]. }
  f_equal.
  { unfold previewsRoutes, apiRoute. simpl.
    by destruct (Hsame "previews.get") as [-> | [-> ->]]. }
  f_equal.
  { unfold translatableStringsRoutes, apiRoute. simpl.
    by destruct (Hsame "translatable-strings.get") as [-> | [-> ->]]. }
  unfold catchAllRoutes, apiRoute. simpl.
  by destruct (Hsame "*") as [-> | [-> ->]].
Qed.

Lemma seoRoutes_falsy moduleOptions m :
  (∀ k, prop (routes (api moduleOptions)) k = prop m k
        ∨ (truthy (prop (routes (api moduleOptions)) k) = false ∧ truthy (prop m k) = false)) →
  seoRoutes (withRoutes m moduleOptions) = seoRoutes moduleOptions.
Proof.
  intros Hsame. unfold seoRoutes, apiRoute. simpl.
  destruct (Hsame "robots.txt.get") as [-> | [-> ->]];
    by destruct (Hsame "sitemap.xml.get") as [-> | [-> ->]].
Qed.

Lemma extendPages_falsy moduleOptions m pages :
  (∀ k, prop (routes (api moduleOptions)) k = prop m k
        ∨ (truthy (prop (routes (api moduleOptions)) k) = false ∧ truthy (prop m k) = false)) →
  extendPagesCallback (withRoutes m moduleOptions) pages
  = extendPagesCallback moduleOptions pages.
Proof.
  intros Hsame. unfold extendPagesCallback, apiRoute. simpl.
  by destruct (Hsame "pages.get") as [-> | [-> ->]].
Qed.

Lemma prop_insert (m : gmap string value) k v k' :
  prop (<[k := v]> m) k' = if decide (k = k') then v else prop m k'.
Proof. unfold prop. rewrite lookup_insert. by case_decide. Qed.

Lemma prop_delete (m : gmap string value) k k' :
  prop (delete k m) k' = if decide (k = k') then VUndefined else prop m k'.
Proof. unfold prop. rewrite lookup_delete. by case_decide. Qed.

(** X1: a route option that is falsy ([false], the empty string, [0] or
    [undefined]) registers exactly what a missing option does: all the
    registrations of [setup] are the same with the option set to such a
    value and with the key removed. *)
Theorem falsy_route_option_is_absent (moduleOptions : ModuleOptions) (key : string)
    (v : value) (uploadsDir : string) (dbInfo : DatabaseInfo) (nuxt : Nuxt) :
  truthy v = false →
  install (withRoute key v moduleOptions) uploadsDir dbInfo nuxt
  = install (withRoutes (delete key (routes (api moduleOptions))) moduleOptions)
            uploadsDir dbInfo nuxt.
Proof.
  intros Hv.
  assert (Hsame : ∀ k,
    prop (routes (api (withRoute key v moduleOptions))) k
    = prop (delete key (routes (api moduleOptions))) k
    ∨ (truthy (prop (routes (api (withRoute key v moduleOptions))) k) = false
       ∧ truthy (prop (delete key (routes (api moduleOptions))) k) = false)).
  { intros k. simpl. rewrite prop_insert, prop_delete.
    case_decide; [right | left]; done. }
  pose proof (apiRoutes_falsy _ _ Hsame) as Hapi.
  pose proof (seoRoutes_falsy _ _ Hsame) as Hseo.
  pose proof (λ pages, extendPages_falsy _ _ pages Hsame) as Hpages.
  unfold install.
  change (withRoutes (delete key (routes (api moduleOptions)))
            (withRoute key v moduleOptions))
    with (withRoutes (delete key (routes (api moduleOptions))) moduleOptions) in *.
  rewrite <- Hapi, <- Hseo. simpl. rewrite <- Hpages. reflexivity.
Qed.

Lemma plainRoutes_length moduleOptions :
  length (plainRoutes moduleOptions)
  = length (filter (λ name, truthy (apiRoute moduleOptions name) = true) plainRouteNames).
Proof.
  unfold plainRoutes. induction plainRouteNames as [| name names IH]; [done |].
  rewrite fmap_cons, filter_cons. simpl. rewrite length_app, IH.
  unfold plainRoute. destruct (truthy (apiRoute moduleOptions name)).
  - by rewrite decide_True.
  - by rewrite decide_False.
Qed.

(** X2: when every route option is falsy and the [config], [language]
    and [auth] server middleware flags are off, [setup] adds no server
    handler at all, whatever the other flags are. *)
Theorem nothing_registered_when_all_disabled (moduleOptions : ModuleOptions) :
  (∀ key, truthy (apiRoute moduleOptions key) = false) →
  flag (server (standardMiddleware moduleOptions)) "config" = false →
  flag (server (standardMiddleware moduleOptions)) "language" = false →
  flag (server (standardMiddleware moduleOptions)) "auth" = false →
  registered moduleOptions = []
  ∧ ∀ options nuxt nuxt',
      setup options nuxt = Started nuxt' →
      resolvedOptions options nuxt = moduleOptions →
      serverHandlers nuxt' = serverHandlers nuxt.
Proof.
  intros Hroutes Hconfig Hlanguage Hauth.
  assert (Hnone : registered moduleOptions = []).
  { unfold registered, serverMiddleware, apiRoutes, collectionsRoute, plainRoutes,
      pagesRoutes, previewsRoutes, translatableStringsRoutes, catchAllRoutes, seoRoutes.
    simpl. unfold plainRoute. rewrite !Hroutes, Hconfig, Hlanguage, Hauth. reflexivity. }
  split; [exact Hnone |].
  intros options nuxt nuxt' Hsetup Hresolved.
  apply setup_serverHandlers in Hsetup.
  by rewrite Hsetup, Hresolved, Hnone, app_nil_r.
Qed.

(** X3: the plain routes get one handler per truthy option, and [setup]
    adds at most 3 middleware handlers, 21 API handlers and 3 SEO
    handlers, 27 server handlers in all. *)
Theorem registered_at_most (moduleOptions : ModuleOptions) :
  length (plainRoutes moduleOptions)
  = length (filter (λ name, truthy (apiRoute moduleOptions name) = true) plainRouteNames)
  ∧ (length (serverMiddleware moduleOptions) ≤ 3)%nat
  ∧ (length (apiRoutes moduleOptions) ≤ 21)%nat
  ∧ (length (seoRoutes moduleOptions) ≤ 3)%nat
  ∧ (length (registered moduleOptions) ≤ 27)%nat.
Proof.
  assert (Hplain : (length (plainRoutes moduleOptions) ≤ 12)%nat).
  { rewrite plainRoutes_length.
    etrans; [apply length_filter |]. done. }
  assert (Hmw : (length (serverMiddleware moduleOptions) ≤ 3)%nat).
  { unfold serverMiddleware. simpl.
    repeat match goal with
           | |- context [if ?c then _ else _] => destruct c
           end; simpl; lia. }
  assert (Hapi : (length (apiRoutes moduleOptions) ≤ 21)%nat).
  { unfold apiRoutes. rewrite !length_app.
    assert ((length (collectionsRoute moduleOptions) ≤ 1)%nat)
      by (unfold collectionsRoute; case_match; simpl; lia).
    assert ((length (pagesRoutes moduleOptions) ≤ 2)%nat)
      by (unfold pagesRoutes; repeat case_match; simpl; lia).
    assert ((length (previewsRoutes moduleOptions) ≤ 2)%nat)
      by (unfold previewsRoutes; repeat case_match; simpl; lia).
    assert ((length (translatableStringsRoutes moduleOptions) ≤ 2)%nat)
      by (unfold translatableStringsRoutes; repeat case_match; simpl; lia).
    assert ((length (catchAllRoutes moduleOptions) ≤ 2)%nat)
      by (unfold catchAllRoutes; repeat case_match; simpl; lia).
    lia. }
  assert (Hseo : (length (seoRoutes moduleOptions) ≤ 3)%nat).
  { unfold seoRoutes. rewrite length_app. repeat case_match; simpl; lia. }
  split_and!; try done.
  - apply plainRoutes_length.
  - unfold registered. rewrite !length_app. lia.
Qed.

Lemma elem_of_concat {A} (x : A) (ls : list (list A)) :
  x ∈ concat ls ↔ ∃ l, x ∈ l ∧ l ∈ ls.
Proof.
  induction ls as [| l ls IH]; simpl.
  - split; [intros H; by apply elem_of_nil in H | intros (l & _ & H); by apply elem_of_nil in H].
  - rewrite elem_of_app, IH. split.
    + intros [H | (l' & H1 & H2)]; [exists l | exists l']; split; try done;
        apply elem_of_cons; auto.
    + intros (l' & H1 & H2). apply elem_of_cons in H2 as [-> | H2]; [by left |].
      right. by exists l'.
Qed.

(** X4: a handler is among those of the plain routes exactly when it is
    the handler of one of the twelve route names whose option is
    truthy, on the route joined from the prefix and the option and with
    the module [./runtime/api/<name>]. *)
Theorem plainRoutes_elem_of (moduleOptions : ModuleOptions) (h : ServerHandler) :
  h ∈ plainRoutes moduleOptions ↔
  ∃ name, name ∈ plainRouteNames
          ∧ truthy (apiRoute moduleOptions name) = true
          ∧ h = apiHandler [VStr (prefix (api moduleOptions)); apiRoute moduleOptions name]
                           ("./runtime/api/" +:+ name).
Proof.
  unfold plainRoutes. rewrite elem_of_concat. split.
  - intros (hs & Hh & Hhs). apply list_elem_of_fmap in Hhs as (name & -> & Hname).
    exists name. unfold plainRoute in Hh.
    destruct (truthy (apiRoute moduleOptions name)); [| by apply elem_of_nil in Hh].
    apply list_elem_of_singleton in Hh. done.
  - intros (name & Hname & Hon & ->). exists (plainRoute moduleOptions name). split.
    + unfold plainRoute. rewrite Hon. by apply list_elem_of_singleton.
    + apply list_elem_of_fmap. by exists name.
Qed.

End RouteOptionFacts.

(** Removing the [collections] option or setting it to the empty string. *)
Lemma falsy_route_option_is_absent_witness :
  let rt := sampleRuntime in
  let dbInfo := {| dialect := "sqlite"; storage := "./pruvious.db" |} in
  truthy (VStr "") = false
  ∧ install (withRoute "collections" (VStr "") (defaults "k")) "" dbInfo freshNuxt
    = install (withRoutes (delete "collections" (routes (api (defaults "k")))) (defaults "k"))
              "" dbInfo freshNuxt.
Proof.
  intros rt dbInfo. split; [reflexivity |].
  apply (@falsy_route_option_is_absent rt). reflexivity.
Defined.

(** The options with no route and only the [uploads] flag. *)
Lemma nothing_registered_when_all_disabled_witness :
  let rt := sampleRuntime in
  (∀ key, truthy (apiRoute allDisabled key) = false)
  ∧ flag (server (standardMiddleware allDisabled)) "config" = false
  ∧ flag (server (standardMiddleware allDisabled)) "language" = false
  ∧ flag (server (standardMiddleware allDisabled)) "auth" = false
  ∧ flag (server (standardMiddleware allDisabled)) "uploads" = true
  ∧ registered allDisabled = [].
Proof.
  intros rt.
  assert (Hroutes : ∀ key, truthy (apiRoute allDisabled key) = false).
  { intros key. unfold apiRoute, prop. simpl. by rewrite lookup_empty. }
  split; [exact Hroutes |].
  split; [reflexivity |]. split; [reflexivity |]. split; [reflexivity |].
  split; [reflexivity |].
  exact (proj1 (@nothing_registered_when_all_disabled rt allDisabled Hroutes
                  eq_refl eq_refl eq_refl)).
Defined.

(** ** The Nuxt instance after [setup] *)

Section SetupEffectFacts.
Context `{rt : Runtime}.

Lemma install_effects moduleOptions uploadsDir dbInfo nuxt nuxt' :
  install moduleOptions uploadsDir dbInfo nuxt = Started nuxt' →
  nuxt_version nuxt' = nuxt_version nuxt
  ∧ rootDir nuxt' = rootDir nuxt
  ∧ dir_public nuxt' = dir_public nuxt
  ∧ runtimeConfig_pruvious nuxt' = runtimeConfig_pruvious nuxt
  ∧ runtimeConfig_public_pruvious nuxt' = runtimeConfig_public_pruvious nuxt
  ∧ routeMiddleware nuxt' = routeMiddleware nuxt ++ clientMiddleware moduleOptions
  ∧ pages nuxt' = extendPagesCallback moduleOptions (pages nuxt)
  ∧ hooks nuxt' = hooks nuxt ++ hookNames
  ∧ alias nuxt' = <["#pruvious" := resolveAppPath "./.pruvious"]> (alias nuxt)
  ∧ pagesEnabled nuxt' = true
  ∧ warnings nuxt' = warnings nuxt
  ∧ ignore nuxt'
    = Some (default [] (ignore nuxt) ++ sqliteIgnore dbInfo ++ uploadsIgnore moduleOptions)
  ∧ fsOps nuxt' = fsOps nuxt ++ uploadsFsOps moduleOptions uploadsDir nuxt.
Proof.
  unfold install, uploadsIgnore, uploadsFsOps. intros Hinstall.
  destruct (drive (uploads moduleOptions)) as [[path urlPrefix | s3] |];
    [| | discriminate].
  - destruct (isDevelopment || isTest); injection Hinstall as <-; simpl;
      rewrite <- ?app_assoc; split_and!; reflexivity.
  - injection Hinstall as <-; simpl. rewrite ?app_nil_r. split_and!; reflexivity.
Qed.

Lemma setup_install options nuxt nuxt' :
  setup options nuxt = Started nuxt' →
  let start :=
    if semverSatisfies (nuxt_version nuxt) "3.10" then nuxt
    else warn (versionWarning (nuxt_version nuxt)) nuxt in
  ∃ installed,
    install (resolvedOptions options nuxt) (getUploadsDir (runtimeConfigOf options nuxt))
            (getDatabaseInfo (runtimeConfigOf options nuxt))
            (setRuntimeConfig (patchModuleOptions (runtimeConfigOf options nuxt)) start)
    = Started installed
    ∧ nuxt' = fsDo (createComponentDirectories (runtimeConfigOf options nuxt)) installed.
Proof.
  unfold setup, resolvedOptions. intros Hsetup. cbv zeta.
  destruct (semverSatisfies (nuxt_version nuxt) "3.10");
    match type of Hsetup with
    | match install ?mo ?u ?d ?n with _ => _ end = _ =>
        destruct (install mo u d n) as [n1 | e] eqn:Hinstall; [| discriminate];
        destruct (validateLanguageOptions mo); [discriminate |];
        injection Hsetup as <-; exists n1; split; [| reflexivity]
    end; first [reflexivity | exact Hinstall].
Qed.

Lemma extendPages_app moduleOptions pages :
  extendPagesCallback moduleOptions pages = pages ++ extendPagesCallback moduleOptions [].
Proof.
  unfold extendPagesCallback.
  destruct (enabled (dashboard moduleOptions));
    destruct (truthy (apiRoute moduleOptions "pages.get") && catchAllPages moduleOptions);
    simpl; by rewrite <- ?app_assoc, ?app_nil_r.
Qed.

Lemma setup_effects options nuxt nuxt' :
  setup options nuxt = Started nuxt' →
  let moduleOptions := resolvedOptions options nuxt in
  let runtimeConfig := runtimeConfigOf options nuxt in
  nuxt_version nuxt' = nuxt_version nuxt
  ∧ rootDir nuxt' = rootDir nuxt
  ∧ dir_public nuxt' = dir_public nuxt
  ∧ runtimeConfig_pruvious nuxt' = Some (fst (patchModuleOptions runtimeConfig))
  ∧ runtimeConfig_public_pruvious nuxt' = Some (snd (patchModuleOptions runtimeConfig))
  ∧ routeMiddleware nuxt' = routeMiddleware nuxt ++ clientMiddleware moduleOptions
  ∧ pages nuxt' = extendPagesCallback moduleOptions (pages nuxt)
  ∧ hooks nuxt' = hooks nuxt ++ hookNames
  ∧ alias nuxt' = <["#pruvious" := resolveAppPath "./.pruvious"]> (alias nuxt)
  ∧ pagesEnabled nuxt' = true
  ∧ warnings nuxt'
    = warnings nuxt
      ++ (if semverSatisfies (nuxt_version nuxt) "3.10" then []
          else [versionWarning (nuxt_version nuxt)])
  ∧ ignore nuxt'
    = Some (default [] (ignore nuxt) ++ sqliteIgnore (getDatabaseInfo runtimeConfig)
            ++ uploadsIgnore moduleOptions)
  ∧ fsOps nuxt'
    = fsOps nuxt ++ uploadsFsOps moduleOptions (getUploadsDir runtimeConfig) nuxt
      ++ createComponentDirectories runtimeConfig.
Proof.
  intros Hsetup. apply setup_install in Hsetup. cbv zeta in Hsetup.
  destruct Hsetup as (installed & Hinstall & ->).
  apply install_effects in Hinstall.
  destruct (semverSatisfies (nuxt_version nuxt) "3.10"); simpl in Hinstall;
    cbv zeta; simpl; rewrite ?app_nil_r;
    destruct Hinstall as (? & ? & ? & ? & ? & ? & ? & ? & ? & ? & ? & ? & Hfs);
    rewrite Hfs, <- ?app_assoc; split_and!; done.
Qed.

(** X5: [setup] only adds to what it pushes to: the server handlers, the
    pages and the ignore patterns the Nuxt instance had are kept, in
    order, at the front of the new ones, and no alias but [#pruvious]
    changes. *)
Theorem setup_only_appends options nuxt nuxt' :
  setup options nuxt = Started nuxt' →
  serverHandlers nuxt `prefix_of` serverHandlers nuxt'
  ∧ pages nuxt `prefix_of` pages nuxt'
  ∧ (∃ patterns, ignore nuxt' = Some patterns ∧ default [] (ignore nuxt) `prefix_of` patterns)
  ∧ (∀ k, k ≠ "#pruvious" → alias nuxt' !! k = alias nuxt !! k).
Proof.
  intros Hsetup. pose proof (setup_serverHandlers _ _ _ Hsetup) as Hhandlers.
  apply setup_effects in Hsetup
    as (_ & _ & _ & _ & _ & _ & Hpages & _ & Halias & _ & _ & Hignore & _).
  rewrite Hhandlers, Hpages, Halias, Hignore, extendPages_app.
  split_and!; try apply prefix_app_r; try done.
  - eexists. split; [done |]. by apply prefix_app_r.
  - intros k Hk. by rewrite lookup_insert_ne.
Qed.

(** X6: the [extendPages] callback appends to the pages it is given at
    most two pages: the dashboard page exactly when the dashboard is
    enabled, and the catch-all page exactly when the [pages.get] route
    option is truthy and [catchAllPages] is set. *)
Theorem extendPages_adds (moduleOptions : ModuleOptions) (pages : list Page) :
  let added := extendPagesCallback moduleOptions [] in
  extendPagesCallback moduleOptions pages = pages ++ added
  ∧ (length added ≤ 2)%nat
  ∧ ("pruvious-dashboard" ∈ page_name <$> added ↔ enabled (dashboard moduleOptions) = true)
  ∧ ("pruvious-page" ∈ page_name <$> added ↔
     truthy (apiRoute moduleOptions "pages.get") = true ∧ catchAllPages moduleOptions = true).
Proof.
  cbv zeta. split; [apply extendPages_app |].
  unfold extendPagesCallback.
  destruct (enabled (dashboard moduleOptions));
    destruct (truthy (apiRoute moduleOptions "pages.get"));
    destruct (catchAllPages moduleOptions); simpl;
    (split_and!; [lia | |]); split; intros H;
    try done; try (destruct H; done);
    repeat (apply elem_of_cons in H as [H | H]; try discriminate);
    try (by apply elem_of_nil in H);
    try (apply elem_of_cons; by left);
    try (apply elem_of_cons; right; apply elem_of_cons; by left).
Qed.

(** X7: the ['components:dirs'] callback puts the icons, misc and blocks
    directories in front, in that order, then the application's icons
    directory if the [icon] field is registered, and keeps the
    directories it is given, in order, at the end. *)
Theorem componentsDirs_in_front (options : ModuleOptions)
    (dirs : list (string * option string)) :
  componentsDirsHook options dirs
  = [(resolveModulePath "./runtime/components/icons", Some "PruviousIcon");
     (resolveModulePath "./runtime/components/misc", Some "Pruvious");
     (resolveAppPath "./blocks", None)]
    ++ (if flag (standardFields options) "icon"
        then [(resolveAppPath "./icons", Some "Icon")] else [])
    ++ dirs
  ∧ dirs `suffix_of` componentsDirsHook options dirs
  ∧ (length (componentsDirsHook options dirs) ≤ length dirs + 4)%nat.
Proof.
  unfold componentsDirsHook.
  destruct (flag (standardFields options) "icon"); simpl; split_and!; try done; try lia.
  - by exists [(resolveModulePath "./runtime/components/icons", Some "PruviousIcon");
       (resolveModulePath "./runtime/components/misc", Some "Pruvious");
       (resolveAppPath "./blocks", None); (resolveAppPath "./icons", Some "Icon")].
  - by exists [(resolveModulePath "./runtime/components/icons", Some "PruviousIcon");
       (resolveModulePath "./runtime/components/misc", Some "Pruvious");
       (resolveAppPath "./blocks", None)].
Qed.

(** X8: the ['nitro:config'] callback is idempotent; with the dashboard
    enabled it sets the rule of [/<dashboard prefix>/**] to
    [{ ssr: false }] and keeps every other rule, and with the dashboard
    disabled it changes nothing. *)
Theorem nitroConfig_rules (moduleOptions : ModuleOptions)
    (routeRules : option (gmap string bool)) :
  let rule := "/" +:+ dashboard_prefix (dashboard moduleOptions) +:+ "/**" in
  nitroConfigHook moduleOptions (nitroConfigHook moduleOptions routeRules)
  = nitroConfigHook moduleOptions routeRules
  ∧ (enabled (dashboard moduleOptions) = true →
     ∃ rules, nitroConfigHook moduleOptions routeRules = Some rules
              ∧ rules !! rule = Some false
              ∧ ∀ k, k ≠ rule → rules !! k = default ∅ routeRules !! k)
  ∧ (enabled (dashboard moduleOptions) = false →
     nitroConfigHook moduleOptions routeRules = routeRules).
Proof.
  cbv zeta. unfold nitroConfigHook.
  destruct (enabled (dashboard moduleOptions)); split_and!; try done.
  - simpl. by rewrite insert_insert_eq.
  - intros _. eexists. split; [done |]. split.
    + apply lookup_insert_eq.
    + intros k Hk. by rewrite lookup_insert_ne.
Qed.

(** X9: the file-system calls of [setup] are those of the uploads drive
    followed by those of [createComponentDirectories].  For an S3 drive
    the first are none; for a local drive [setup] ensures the uploads
    directory, removes the link directory under the public directory,
    and creates the link again only in development or test. *)
Theorem uploads_filesystem options nuxt nuxt' :
  setup options nuxt = Started nuxt' →
  let moduleOptions := resolvedOptions options nuxt in
  let dir := getUploadsDir (runtimeConfigOf options nuxt) in
  let components := createComponentDirectories (runtimeConfigOf options nuxt) in
  (∀ s3, drive (uploads moduleOptions) = Some (DriveS3 s3) →
         fsOps nuxt' = fsOps nuxt ++ components)
  ∧ (∀ path urlPrefix,
       drive (uploads moduleOptions) = Some (DriveLocal path urlPrefix) →
       let symDir := pathJoin [rootDir nuxt; dir_public nuxt; default "uploads" urlPrefix] in
       fsOps nuxt'
       = fsOps nuxt ++ [EnsureDir dir; Remove symDir]
         ++ (if isDevelopment || isTest
             then [EnsureSymlink dir symDir "junction"] else [])
         ++ components)
  ∧ (∀ src dst kind,
       EnsureSymlink src dst kind ∈ fsOps nuxt' →
       EnsureSymlink src dst kind ∈ fsOps nuxt
       ∨ EnsureSymlink src dst kind ∈ components
       ∨ isDevelopment || isTest = true).
Proof.
  intros Hsetup. apply setup_effects in Hsetup
    as (_ & _ & _ & _ & _ & _ & _ & _ & _ & _ & _ & _ & Hfs).
  cbv zeta. rewrite Hfs. unfold uploadsFsOps. split_and!.
  - by intros s3 ->.
  - intros path urlPrefix ->. by rewrite <- !app_assoc.
  - intros src dst kind Hin. apply elem_of_app in Hin as [Hin | Hin]; [by left |].
    apply elem_of_app in Hin as [Hin | Hin]; [| right; by left].
    destruct (drive (uploads (resolvedOptions options nuxt))) as [[path urlPrefix | s3] |];
      try (by apply elem_of_nil in Hin).
    destruct (isDevelopment || isTest); [right; by right |].
    simpl in Hin.
    repeat (apply elem_of_cons in Hin as [Hin | Hin]; try discriminate).
    by apply elem_of_nil in Hin.
Qed.

(** X10: after [setup] the ignore list is defined and starts with the
    patterns it had; for SQLite it holds the database file and its
    journal, for a local drive the uploads directory, and with another
    dialect and an S3 drive nothing is added. *)
Theorem ignore_patterns options nuxt nuxt' :
  setup options nuxt = Started nuxt' →
  let moduleOptions := resolvedOptions options nuxt in
  let dbInfo := getDatabaseInfo (runtimeConfigOf options nuxt) in
  ∃ patterns,
    ignore nuxt' = Some patterns
    ∧ default [] (ignore nuxt) `prefix_of` patterns
    ∧ (dialect dbInfo = "sqlite" →
       "**/" +:+ basename (storage dbInfo) ∈ patterns
       ∧ "**/" +:+ (basename (storage dbInfo) +:+ "-journal") ∈ patterns)
    ∧ (∀ path urlPrefix,
         drive (uploads moduleOptions) = Some (DriveLocal path urlPrefix) →
         "**/" +:+ basename (default "./uploads" path) +:+ "/**/*" ∈ patterns)
    ∧ (dialect dbInfo ≠ "sqlite" →
       ∀ s3, drive (uploads moduleOptions) = Some (DriveS3 s3) →
             patterns = default [] (ignore nuxt)).
Proof.
  intros Hsetup. apply setup_effects in Hsetup
    as (_ & _ & _ & _ & _ & _ & _ & _ & _ & _ & _ & Hignore & _).
  cbv zeta. eexists. split; [exact Hignore |]. unfold sqliteIgnore, uploadsIgnore.
  split_and!.
  - by apply prefix_app_r.
  - intros ->. rewrite String.eqb_refl. set_solver.
  - intros path urlPrefix ->. set_solver.
  - intros Hdialect s3 ->. apply String.eqb_neq in Hdialect. rewrite Hdialect.
    by rewrite !app_nil_r.
Qed.

(** X11: [setup] leaves the Nuxt version as it is and logs exactly one
    warning when the version does not satisfy [3.10], none when it
    does. *)
Theorem version_warning options nuxt nuxt' :
  setup options nuxt = Started nuxt' →
  nuxt_version nuxt' = nuxt_version nuxt
  ∧ warnings nuxt'
    = warnings nuxt
      ++ (if semverSatisfies (nuxt_version nuxt) "3.10" then []
          else [versionWarning (nuxt_version nuxt)])
  ∧ (semverSatisfies (nuxt_version nuxt) "3.10" = true → warnings nuxt' = warnings nuxt).
Proof.
  intros Hsetup. apply setup_effects in Hsetup
    as (Hversion & _ & _ & _ & _ & _ & _ & _ & _ & _ & Hwarn & _).
  split_and!; try done. intros Hok. rewrite Hwarn, Hok. apply app_nil_r.
Qed.

(** X12: [setup] adds at most one route middleware, [pruvious-auth],
    always global and overriding; with [standardMiddleware.client.auth]
    off it adds none. *)
Theorem client_middleware_global options nuxt nuxt' :
  setup options nuxt = Started nuxt' →
  let moduleOptions := resolvedOptions options nuxt in
  routeMiddleware nuxt' = routeMiddleware nuxt ++ clientMiddleware moduleOptions
  ∧ (length (clientMiddleware moduleOptions) ≤ 1)%nat
  ∧ Forall (λ m, mw_name m.1 = "pruvious-auth" ∧ mw_global m.1 = true ∧ m.2 = true)
           (clientMiddleware moduleOptions)
  ∧ (clientMiddleware moduleOptions = [] ↔
     client_auth (standardMiddleware moduleOptions) = false).
Proof.
  intros Hsetup. apply setup_effects in Hsetup
    as (_ & _ & _ & _ & _ & Hmw & _).
  cbv zeta. split; [exact Hmw |]. unfold clientMiddleware.
  destruct (client_auth (standardMiddleware (resolvedOptions options nuxt))); simpl.
  - split_and!; [lia | by repeat constructor | done].
  - split_and!; [lia | constructor | done].
Qed.

(** X13: the loop over the base components keeps the set of component
    names; a truthy entry becomes the application path of that entry,
    a falsy one (no path, or an empty one) the module's own component
    of that name, and the other dashboard options are untouched. *)
Theorem baseComponents_resolved (d : DashboardOptions) :
  let resolved := baseComponents (resolveBaseComponents d) in
  let builtin name :=
    VStr (resolveRelativeModulePath
            ["./runtime/components/dashboard"; pascalCase name +:+ ".vue"]) in
  dom resolved = dom (baseComponents d)
  ∧ (∀ name v, baseComponents d !! name = Some v → truthy v = true →
               resolved !! name = Some (VStr (resolveRelativeAppPath v)))
  ∧ (∀ name v, baseComponents d !! name = Some v → truthy v = false →
               resolved !! name = Some (builtin name))
  ∧ enabled (resolveBaseComponents d) = enabled d
  ∧ legalLinks (resolveBaseComponents d) = legalLinks d
  ∧ dashboard_prefix (resolveBaseComponents d) = dashboard_prefix d
  ∧ removeSiteStyles (resolveBaseComponents d) = removeSiteStyles d.
Proof.
  cbv zeta. unfold resolveBaseComponents. simpl. split_and!; try done.
  - apply set_eq. intros name. rewrite !elem_of_dom, map_lookup_imap.
    destruct (baseComponents d !! name); simpl; split; intros [? ?]; done.
  - intros name v Hname Hv. rewrite map_lookup_imap, Hname. simpl. by rewrite Hv.
  - intros name v Hname Hv. rewrite map_lookup_imap, Hname. simpl. by rewrite Hv.
Qed.

End SetupEffectFacts.

(** [setup] starts on the sample input, with the result [busyStarted]. *)
Ltac run_setup :=
  change (@setup sampleRuntime (defaults "k") busyNuxt = Started busyStarted);
  unfold busyStarted;
  let Hstarted := fresh "Hstarted" in
  assert (Hstarted : started (@setup sampleRuntime (defaults "k") busyNuxt) = true)
    by (vm_compute; reflexivity);
  destruct (@setup sampleRuntime (defaults "k") busyNuxt);
  [reflexivity | discriminate Hstarted].

(** The default options installed on [busyNuxt] by the sample runtime. *)
Lemma setup_only_appends_witness :
  let rt := sampleRuntime in
  setup (defaults "k") busyNuxt = Started busyStarted
  ∧ serverHandlers busyNuxt `prefix_of` serverHandlers busyStarted
  ∧ pages busyNuxt `prefix_of` pages busyStarted
  ∧ alias busyStarted !! "~" = Some "/app".
Proof.
  intros rt.
  assert (Hsetup : setup (defaults "k") busyNuxt = Started busyStarted)
    by run_setup.
  destruct (@setup_only_appends rt _ _ _ Hsetup) as (Hhandlers & Hpages & _ & Halias).
  split; [exact Hsetup |]. split; [exact Hhandlers |]. split; [exact Hpages |].
  rewrite Halias by discriminate. reflexivity.
Defined.

Lemma uploads_filesystem_witness :
  let rt := sampleRuntime in
  setup (defaults "k") busyNuxt = Started busyStarted
  ∧ fsOps busyStarted
    = [EnsureDir "app/./.uploads"; Remove "/app/public/uploads"; EnsureDir "/app/./blocks"]
  ∧ ∀ src dst kind, EnsureSymlink src dst kind ∉ fsOps busyStarted.
Proof.
  intros rt.
  assert (Hsetup : setup (defaults "k") busyNuxt = Started busyStarted)
    by run_setup.
  pose proof (@uploads_filesystem rt _ _ _ Hsetup) as Hfs. cbv zeta in Hfs.
  destruct Hfs as (_ & Hlocal & Hlink).
  split; [exact Hsetup |]. split.
  - exact (Hlocal (Some "./.uploads") (Some "uploads") eq_refl).
  - intros src dst kind Hin.
    destruct (Hlink src dst kind Hin) as [Hold | [Hcomponents | Hdev]].
    + by apply elem_of_nil in Hold.
    + apply list_elem_of_singleton in Hcomponents. discriminate Hcomponents.
    + discriminate Hdev.
Defined.

Lemma ignore_patterns_witness :
  let rt := sampleRuntime in
  setup (defaults "k") busyNuxt = Started busyStarted
  ∧ ∃ patterns,
      ignore busyStarted = Some patterns
      ∧ ["dist"] `prefix_of` patterns
      ∧ "**/./pruvious.db" ∈ patterns
      ∧ "**/./pruvious.db-journal" ∈ patterns
      ∧ "**/./.uploads/**/*" ∈ patterns.
Proof.
  intros rt.
  assert (Hsetup : setup (defaults "k") busyNuxt = Started busyStarted)
    by run_setup.
  pose proof (@ignore_patterns rt _ _ _ Hsetup) as Hignore. cbv zeta in Hignore.
  destruct Hignore as (patterns & Hsome & Hprefix & Hsqlite & Hlocal & _).
  split; [exact Hsetup |]. exists patterns.
  split; [exact Hsome |]. split; [exact Hprefix |].
  destruct (Hsqlite eq_refl) as [Hdb Hjournal].
  split; [exact Hdb |]. split; [exact Hjournal |].
  exact (Hlocal (Some "./.uploads") (Some "uploads") eq_refl).
Defined.

Lemma version_warning_witness :
  let rt := sampleRuntime in
  setup (defaults "k") busyNuxt = Started busyStarted
  ∧ nuxt_version busyStarted = "3.9.0"
  ∧ warnings busyStarted = [versionWarning "3.9.0"].
Proof.
  intros rt.
  assert (Hsetup : setup (defaults "k") busyNuxt = Started busyStarted)
    by run_setup.
  destruct (@version_warning rt _ _ _ Hsetup) as (Hversion & Hwarn & _).
  split; [exact Hsetup |]. split; [exact Hversion | exact Hwarn].
Defined.

Lemma client_middleware_global_witness :
  let rt := sampleRuntime in
  setup (defaults "k") busyNuxt = Started busyStarted
  ∧ routeMiddleware busyStarted
    = [({| mw_name := "pruvious-auth";
           mw_path := "/module/./runtime/middleware/client/auth";
           mw_global := true |}, true)].
Proof.
  intros rt.
  assert (Hsetup : setup (defaults "k") busyNuxt = Started busyStarted)
    by run_setup.
  pose proof (@client_middleware_global rt _ _ _ Hsetup) as Hmw. cbv zeta in Hmw.
  destruct Hmw as (Hadded & _).
  split; [exact Hsetup | exact Hadded].
Defined.
